(** * happy-cli / opencode: the OpenCode backend adapter and its transport client

    A shallow embedding of the class [OpenCodeBackend]
    ([src/opencode/OpenCodeBackend.ts]) and of the class [OpenCodeClient] that
    it imports from [./client] (its text follows the display component in
    [src/opencode/OpenCodeDisplay.tsx]), and the properties of the adapter
    that the specification states. Further properties (marked X) cover the
    error paths of the methods, the push subscriptions, the configuration
    ([createOpenCodeBackend], the setup and the message handler of
    [runOpenCode]), the health probes and the class [FusionClient] (its text
    follows the factory in [src/opencode/factory.ts]).

    Conventions of the embedding.
    - A JavaScript string is the list of its UTF-16 code units ([list N]);
      [js "..."] turns an ASCII literal into such a list.
    - A value decoded by [JSON.parse] is a [JsValue]; a property that is
      absent reads as [JUndefined], as in JavaScript.
    - The fields of [this] (backend and client) together with the
      observable effects (handler invocations, requests sent, identifiers
      drawn from [crypto.randomUUID]) form a [World]; methods are
      computations in the state-and-exception monad [M].
    - What the network answers is an argument of the method that awaits it.
    - Message handlers are modelled as recorders: calling handler [h] with
      message [m] appends [(h, m)] to [delivered] and returns normally.
    - Fields that TypeScript declares with a type ([currentSessionId], the
      [id] of a created session, prompts) have that type; what is declared
      [unknown] or comes out of [JSON.parse] is a [JsValue]. *)

From Stdlib Require Import NArith String Ascii List Lia.
From Stdlib Require Import DecimalString SpecFloat.
From Stdlib Require DecimalN.
From stdpp Require Import gmap list fin_maps countable.

Set Default Proof Using "Type".

(** ** JavaScript strings *)

Abbreviation jstring := (list N).

Definition js (s : string) : jstring := map N_of_ascii (list_ascii_of_string s).
Arguments js s%_string.

(** [String(n)] for a natural number (an HTTP status). *)
Definition js_of_N (n : N) : jstring := js (NilEmpty.string_of_uint (N.to_uint n)).

(** ECMAScript [WhiteSpace] and [LineTerminator] code points, the ones
    [String.prototype.trim] strips. All of them are in the BMP, so the
    test is on single code units. *)
Definition is_white_space (c : N) : bool :=
  ((9 <=? c) && (c <=? 13) || (c =? 32) || (c =? 160) || (c =? 5760)
   || (8192 <=? c) && (c <=? 8202) || (c =? 8232) || (c =? 8233)
   || (c =? 8239) || (c =? 8287) || (c =? 12288) || (c =? 65279))%N.

Fixpoint trimStart (s : jstring) : jstring :=
  match s with
  | c :: s' => if is_white_space c then trimStart s' else s
  | [] => []
  end.

Definition trim (s : jstring) : jstring := rev (trimStart (rev (trimStart s))).

(** [s.split('\n')]: never empty, [''.split('\n')] is [['']]. *)
Definition LF : N := 10%N.

Fixpoint split_LF (s : jstring) : list jstring :=
  match s with
  | [] => [[]]
  | c :: s' =>
      if (c =? LF)%N then [] :: split_LF s'
      else match split_LF s' with
           | l :: ls => (c :: l) :: ls
           | [] => [[c]]
           end
  end.

(** ** JavaScript values *)

#[warnings="-register-all"]
Inductive JsValue :=
| JUndefined
| JNull
| JBool (b : bool)
| JNum (x : spec_float)
| JStr (s : jstring)
| JArr (l : list JsValue)
| JObj (o : gmap jstring JsValue).

(** [ToBoolean]. *)
Definition truthy (v : JsValue) : bool :=
  match v with
  | JUndefined | JNull => false
  | JBool b => b
  | JNum (S754_zero _) | JNum S754_nan => false
  | JNum _ => true
  | JStr s => negb (bool_decide (s = []))
  | JArr _ | JObj _ => true
  end.

(** [a || b] on values that are already evaluated. *)
Definition js_or (a b : JsValue) : JsValue := if truthy a then a else b.
Infix "|||" := js_or (at level 50, left associativity).

(** [v === 'literal']. *)
Definition is_string (v : JsValue) (s : jstring) : bool :=
  match v with
  | JStr s' => bool_decide (s' = s)
  | _ => false
  end.

(** The [case] labels of one [switch] arm. *)
Definition case_of (v : JsValue) (labels : list jstring) : bool :=
  existsb (is_string v) labels.

(** ** Canonical messages *)

Inductive StatusKind := running | idle | error | stopped.

(** Modelled from the spec: the type [AgentMessage] of [../agent/core],
    which is not among the sources; section 3 of the specification lists
    its variants and fields. A field that the adapter fills with a cast
    ([as string], [as Record<string, unknown>]) of untyped data holds a
    [JsValue], since the cast does nothing at run time. *)
Inductive AgentMessage :=
| Status (status : StatusKind) (detail : option JsValue)
| ModelOutput (textDelta : JsValue)
| ToolCall (toolName args callId : JsValue)
| ToolResult (toolName result callId : JsValue)
| PermissionRequest (id reason payload : JsValue)
| PermissionResponse (id : jstring) (approved : bool)
| FsEdit (description diff path : JsValue)
| TerminalOutput (data : JsValue).

Inductive Variant :=
| VStatus | VModelOutput | VToolCall | VToolResult | VPermissionRequest
| VPermissionResponse | VFsEdit | VTerminalOutput.

Definition variant (m : AgentMessage) : Variant :=
  match m with
  | Status _ _ => VStatus
  | ModelOutput _ => VModelOutput
  | ToolCall _ _ _ => VToolCall
  | ToolResult _ _ _ => VToolResult
  | PermissionRequest _ _ _ => VPermissionRequest
  | PermissionResponse _ _ => VPermissionResponse
  | FsEdit _ _ _ => VFsEdit
  | TerminalOutput _ => VTerminalOutput
  end.

(** ** The world: fields of the backend, of its client, and the effects *)

Abbreviation Handler := nat (only parsing).
Abbreviation PromiseId := nat (only parsing).
Abbreviation Subscriber := nat (only parsing).

Inductive JsError :=
| TypeError
| SyntaxError
| Error (message : jstring).

(** [OpenCodeMessagePart], the [text] variant (the only one built here). *)
Inductive OpenCodeMessagePart := TextPart (text : jstring).

Inductive Request :=
| PostSession
| PostMessage (sessionId : jstring) (parts : list OpenCodeMessagePart)
| PostAbort (sessionId : jstring).

Record World := mkWorld {
  (* OpenCodeBackend *)
  messageHandlers : list Handler;          (* a Set, in insertion order *)
  currentSessionId : option jstring;       (* string | null *)
  eventUnsubscribe : option Subscriber;    (* the closure returned by connectToEvents *)
  responseComplete : option PromiseId;
  responseResolve : option PromiseId;      (* the resolve function of that promise *)
  (* OpenCodeClient *)
  eventSource : bool;                      (* an EventSource is open *)
  eventHandlers : list Subscriber;         (* a Set, in insertion order *)
  (* the heap of promises created by sendPrompt *)
  resolved : gset PromiseId;
  next_promise : PromiseId;
  next_subscriber : Subscriber;
  (* effects *)
  delivered : list (Handler * AgentMessage);
  requests : list Request;
  uuid_calls : nat
}.

(** The state after [new OpenCodeBackend(options)]. *)
Definition new_OpenCodeBackend : World :=
  {| messageHandlers := []; currentSessionId := None; eventUnsubscribe := None;
     responseComplete := None; responseResolve := None;
     eventSource := false; eventHandlers := [];
     resolved := ∅; next_promise := 0; next_subscriber := 0;
     delivered := []; requests := []; uuid_calls := 0 |}.

Definition set_messageHandlers (v : list Handler) (w : World) : World :=
  mkWorld v (currentSessionId w) (eventUnsubscribe w) (responseComplete w)
    (responseResolve w) (eventSource w) (eventHandlers w) (resolved w)
    (next_promise w) (next_subscriber w) (delivered w) (requests w) (uuid_calls w).
Definition set_currentSessionId (v : option jstring) (w : World) : World :=
  mkWorld (messageHandlers w) v (eventUnsubscribe w) (responseComplete w)
    (responseResolve w) (eventSource w) (eventHandlers w) (resolved w)
    (next_promise w) (next_subscriber w) (delivered w) (requests w) (uuid_calls w).
Definition set_eventUnsubscribe (v : option Subscriber) (w : World) : World :=
  mkWorld (messageHandlers w) (currentSessionId w) v (responseComplete w)
    (responseResolve w) (eventSource w) (eventHandlers w) (resolved w)
    (next_promise w) (next_subscriber w) (delivered w) (requests w) (uuid_calls w).
Definition set_responseComplete (v : option PromiseId) (w : World) : World :=
  mkWorld (messageHandlers w) (currentSessionId w) (eventUnsubscribe w) v
    (responseResolve w) (eventSource w) (eventHandlers w) (resolved w)
    (next_promise w) (next_subscriber w) (delivered w) (requests w) (uuid_calls w).
Definition set_responseResolve (v : option PromiseId) (w : World) : World :=
  mkWorld (messageHandlers w) (currentSessionId w) (eventUnsubscribe w)
    (responseComplete w) v (eventSource w) (eventHandlers w) (resolved w)
    (next_promise w) (next_subscriber w) (delivered w) (requests w) (uuid_calls w).
Definition set_eventSource (v : bool) (w : World) : World :=
  mkWorld (messageHandlers w) (currentSessionId w) (eventUnsubscribe w)
    (responseComplete w) (responseResolve w) v (eventHandlers w) (resolved w)
    (next_promise w) (next_subscriber w) (delivered w) (requests w) (uuid_calls w).
Definition set_eventHandlers (v : list Subscriber) (w : World) : World :=
  mkWorld (messageHandlers w) (currentSessionId w) (eventUnsubscribe w)
    (responseComplete w) (responseResolve w) (eventSource w) v (resolved w)
    (next_promise w) (next_subscriber w) (delivered w) (requests w) (uuid_calls w).
Definition set_resolved (v : gset PromiseId) (w : World) : World :=
  mkWorld (messageHandlers w) (currentSessionId w) (eventUnsubscribe w)
    (responseComplete w) (responseResolve w) (eventSource w) (eventHandlers w) v
    (next_promise w) (next_subscriber w) (delivered w) (requests w) (uuid_calls w).
Definition set_next_promise (v : PromiseId) (w : World) : World :=
  mkWorld (messageHandlers w) (currentSessionId w) (eventUnsubscribe w)
    (responseComplete w) (responseResolve w) (eventSource w) (eventHandlers w)
    (resolved w) v (next_subscriber w) (delivered w) (requests w) (uuid_calls w).
Definition set_next_subscriber (v : Subscriber) (w : World) : World :=
  mkWorld (messageHandlers w) (currentSessionId w) (eventUnsubscribe w)
    (responseComplete w) (responseResolve w) (eventSource w) (eventHandlers w)
    (resolved w) (next_promise w) v (delivered w) (requests w) (uuid_calls w).
Definition set_delivered (v : list (Handler * AgentMessage)) (w : World) : World :=
  mkWorld (messageHandlers w) (currentSessionId w) (eventUnsubscribe w)
    (responseComplete w) (responseResolve w) (eventSource w) (eventHandlers w)
    (resolved w) (next_promise w) (next_subscriber w) v (requests w) (uuid_calls w).
Definition set_requests (v : list Request) (w : World) : World :=
  mkWorld (messageHandlers w) (currentSessionId w) (eventUnsubscribe w)
    (responseComplete w) (responseResolve w) (eventSource w) (eventHandlers w)
    (resolved w) (next_promise w) (next_subscriber w) (delivered w) v (uuid_calls w).
Definition set_uuid_calls (v : nat) (w : World) : World :=
  mkWorld (messageHandlers w) (currentSessionId w) (eventUnsubscribe w)
    (responseComplete w) (responseResolve w) (eventSource w) (eventHandlers w)
    (resolved w) (next_promise w) (next_subscriber w) (delivered w) (requests w) v.

(** ** The monad of methods: state and exceptions *)

Inductive Completion (A : Type) :=
| Normal (a : A)
| Throw (e : JsError).
Arguments Normal {A} a.
Arguments Throw {A} e.

Definition M (A : Type) : Type := World → Completion A * World.

#[global] Instance M_ret : MRet M := λ A a w, (Normal a, w).
#[global] Instance M_bind : MBind M := λ A B f m w,
  match m w with
  | (Normal a, w') => f a w'
  | (Throw e, w') => (Throw e, w')
  end.

Definition throw {A} (e : JsError) : M A := λ w, (Throw e, w).
Definition get {A} (f : World → A) : M A := λ w, (Normal (f w), w).
Definition modify (f : World → World) : M unit := λ w, (Normal tt, f w).

(** [try { body } catch { handler }] *)
Definition try_catch {A} (body : M A) (handler : M A) : M A := λ w,
  match body w with
  | (Normal a, w') => (Normal a, w')
  | (Throw _, w') => handler w'
  end.

(** [for (const x of xs) body(x)] *)
Fixpoint for_of {A} (xs : list A) (body : A → M unit) : M unit :=
  match xs with
  | [] => mret tt
  | x :: xs' => body x ;; for_of xs' body
  end.

Definition when (b : bool) (m : M unit) : M unit := if b then m else mret tt.

(** ** Answers of the network *)

Record Response (A : Type) := mkResponse {
  ok : bool;
  status : N;
  content : A          (* what [json()] or [body] gives *)
}.
Arguments mkResponse {A}.
Arguments ok {A}.
Arguments status {A}.
Arguments content {A}.

(** The outcome of [await fetch(...)]: a rejection or a response. *)
Inductive Fetched (A : Type) :=
| NetworkFailure
| Responded (r : Response A).
Arguments NetworkFailure {A}.
Arguments Responded {A} r.

Record OpenCodeSessionCreateResponse := { session_id : jstring }.

(** A response body read to its end: the text that [decoder.decode]
    returns for each [reader.read()], then [done], or a failing read. *)
Inductive StreamEnd := Done | ReadError.
Record Body := mkBody {
  values : list jstring;
  stream_end : StreamEnd
}.

(** [lines.pop()] *)
Definition pop {A} (l : list A) : option A * list A :=
  match rev l with
  | [] => (None, [])
  | x :: r => (Some x, rev r)
  end.

(** ** Promises on the clock of the event loop

    [waitForResponseComplete] races two promises. A promise is described,
    from the instant of the call, by its fate: when (in milliseconds after
    the call) and how it settles, or that it never does. Among promises
    that settle at the same instant, [Promise.race] follows the first one
    listed. *)

Inductive Settlement :=
| Fulfilled
| Rejected (reason : JsError).

Definition Fate : Type := option (N * Settlement).

Definition earlier (a b : Fate) : Fate :=
  match a, b with
  | Some (ta, _), Some (tb, _) => if (tb <? ta)%N then b else a
  | Some _, None => a
  | None, _ => b
  end.

Definition Promise_race (promises : list Fate) : Fate := foldr earlier None promises.

(** [new Promise((_, reject) => setTimeout(() => reject(reason), ms))] *)
Definition setTimeout_reject (ms : N) (reason : JsError) : Fate :=
  Some (ms, Rejected reason).

Section OpenCode.

(** Platform functions the sources call.
    [JSON_parse s] is [None] when [JSON.parse(s)] throws a [SyntaxError];
    [randomUUID k] is what the [k]-th call of [crypto.randomUUID()] in the
    process returns; [EventSource_defined] is
    [typeof EventSource !== 'undefined']. *)
Variable JSON_parse : jstring → option JsValue.
Variable randomUUID : nat → jstring.
Variable EventSource_defined : bool.

(** *** Property access and [crypto.randomUUID] *)

(** [data.key] for a value that [JSON.parse] returned. None of the keys the
    adapter reads is a property of [String.prototype], [Number.prototype],
    [Boolean.prototype], [Array.prototype] or [Object.prototype]. *)
Definition prop (data : JsValue) (key : string) : M JsValue :=
  match data with
  | JUndefined | JNull => throw TypeError
  | JObj o => mret (default JUndefined (o !! js key))
  | _ => mret JUndefined
  end.

Definition crypto_randomUUID : M JsValue := λ w,
  (Normal (JStr (randomUUID (uuid_calls w))), set_uuid_calls (S (uuid_calls w)) w).

(** [a || crypto.randomUUID()]: the call is made only when [a] is falsy. *)
Definition or_randomUUID (a : JsValue) : M JsValue :=
  if truthy a then mret a else crypto_randomUUID.

(** *** OpenCodeBackend.emit *)

Definition call_handler (message : AgentMessage) (handler : Handler) : M unit :=
  modify (λ w, set_delivered (delivered w ++ [(handler, message)]) w).

Definition emit (message : AgentMessage) : M unit :=
  handlers ← get messageHandlers;
  for_of handlers (call_handler message).

(** *** OpenCodeBackend.processOpenCodeData *)

Definition processOpenCodeData (data : JsValue) : M unit :=
  eventType ← prop data "type";
  if case_of eventType [js "text"; js "token"; js "content"] then
    content ← prop data "content";
    text ← prop data "text";
    delta ← prop data "delta";
    emit (ModelOutput (content ||| text ||| delta))
  else if case_of eventType [js "tool_call"; js "tool-call"] then
    name ← prop data "name";
    toolName ← prop data "toolName";
    arguments ← prop data "arguments";
    args ← prop data "args";
    id ← prop data "id";
    callId ← prop data "callId";
    fresh ← or_randomUUID (id ||| callId);
    emit (ToolCall (name ||| toolName ||| JStr (js "unknown"))
                   (arguments ||| args ||| JObj ∅)
                   fresh)
  else if case_of eventType [js "tool_result"; js "tool-result"] then
    name ← prop data "name";
    toolName ← prop data "toolName";
    result ← prop data "result";
    output ← prop data "output";
    id ← prop data "id";
    callId ← prop data "callId";
    emit (ToolResult (name ||| toolName ||| JStr (js "unknown"))
                     (result ||| output)
                     (id ||| callId ||| JStr (js "")))
  else if case_of eventType [js "file_edit"; js "fs-edit"] then
    description ← prop data "description";
    summary ← prop data "summary";
    diff ← prop data "diff";
    path ← prop data "path";
    emit (FsEdit (description ||| summary ||| JStr (js "")) diff path)
  else if case_of eventType [js "terminal"; js "terminal-output"] then
    output ← prop data "output";
    data' ← prop data "data";
    emit (TerminalOutput (output ||| data' ||| JStr (js "")))
  else if case_of eventType [js "permission_request"; js "permission-request"] then
    id ← prop data "id";
    fresh ← or_randomUUID id;
    reason ← prop data "reason";
    message ← prop data "message";
    payload ← prop data "payload";
    emit (PermissionRequest fresh (reason ||| message ||| JStr (js "")) (payload ||| data))
  else if case_of eventType [js "error"] then
    message ← prop data "message";
    error' ← prop data "error";
    emit (Status error (Some (message ||| error' ||| JStr (js "Unknown error"))))
  else if case_of eventType [js "done"; js "complete"; js "finished"] then
    emit (Status idle None)
  else
    text ← prop data "text";
    content ← prop data "content";
    if truthy (text ||| content) then emit (ModelOutput (text ||| content))
    else mret tt.

(** *** OpenCodeBackend.handleStreamChunk *)

Definition handleStreamChunk (chunk : jstring) : M unit :=
  try_catch
    (match JSON_parse chunk with
     | None => throw SyntaxError
     | Some data => processOpenCodeData data
     end)
    (if truthy (JStr (trim chunk)) then emit (ModelOutput (JStr chunk))
     else mret tt).

(** *** OpenCodeBackend.handleOpenCodeEvent *)

(** [a !== this.currentSessionId], the right side being a string or null. *)
Definition strict_ne (a : JsValue) (current : option jstring) : bool :=
  match a, current with
  | JStr s, Some c => negb (bool_decide (s = c))
  | JNull, None => false
  | _, _ => true
  end.

Definition handleOpenCodeEvent (event : JsValue) : M unit :=
  sessionId ← prop event "sessionId";
  current ← get currentSessionId;
  if truthy sessionId && strict_ne sessionId current then mret tt
  else processOpenCodeData event.

(** *** OpenCodeClient (client.ts) *)

(** [Set.prototype.add] and [Set.prototype.delete] on an insertion-ordered set. *)
Definition Set_add (x : nat) (s : list nat) : list nat :=
  if bool_decide (x ∈ s) then s else s ++ [x].
Definition Set_delete (x : nat) (s : list nat) : list nat :=
  filter (λ y, y ≠ x) s.

Definition fetch (req : Request) : M unit :=
  modify (λ w, set_requests (requests w ++ [req]) w).

Definition createSession (answer : Fetched (option OpenCodeSessionCreateResponse))
  : M OpenCodeSessionCreateResponse :=
  fetch PostSession;;
  match answer with
  | NetworkFailure => throw TypeError
  | Responded response =>
      if negb (ok response) then
        throw (Error (js "Failed to create session: " ++ js_of_N (status response)))
      else match content response with
           | Some session => mret session
           | None => throw SyntaxError          (* response.json() rejects *)
           end
  end.

(** The body of [while (true) { ... }] in [sendMessage], once per value read. *)
Fixpoint read_loop (onChunk : option (jstring → M unit)) (reads : list jstring)
    (buffer : jstring) : M jstring :=
  match reads with
  | [] => mret buffer                                         (* done: break *)
  | value :: reads' =>
      let buffer := buffer ++ value in
      let '(last, lines) := pop (split_LF buffer) in
      let buffer := match last with
                    | Some l => if truthy (JStr l) then l else js ""
                    | None => js ""
                    end in
      for_of lines (λ line,
        match onChunk with
        | Some f => if truthy (JStr (trim line)) then f line else mret tt
        | None => mret tt
        end);;
      read_loop onChunk reads' buffer
  end.

Definition sendMessage (sessionId : jstring) (parts : list OpenCodeMessagePart)
    (onChunk : option (jstring → M unit)) (answer : Fetched (option Body)) : M unit :=
  fetch (PostMessage sessionId parts);;
  match answer with
  | NetworkFailure => throw TypeError
  | Responded response =>
      if negb (ok response) then
        throw (Error (js "Failed to send message: " ++ js_of_N (status response)))
      else match content response with
           | None => throw (Error (js "No response body"))
           | Some body =>
               buffer ← read_loop onChunk (values body) (js "");
               match stream_end body with
               | ReadError => throw TypeError
               | Done =>
                   match onChunk with
                   | Some f => if truthy (JStr (trim buffer)) then f buffer else mret tt
                   | None => mret tt
                   end
               end
           end
  end.

Definition abortSession (sessionId : jstring) (answer : Fetched unit) : M unit :=
  fetch (PostAbort sessionId);;
  match answer with
  | NetworkFailure => throw TypeError
  | Responded response =>
      if negb (ok response) && negb (status response =? 404)%N then
        throw (Error (js "Failed to abort session: " ++ js_of_N (status response)))
      else mret tt
  end.

(** [connectToEvents(onEvent)]; every [onEvent] the backend passes is a new
    closure [(event) => this.handleOpenCodeEvent(event)], named here by a
    fresh number. The result names the returned unsubscribe closure. *)
Definition connectToEvents : M Subscriber :=
  onEvent ← get next_subscriber;
  modify (set_next_subscriber (S onEvent));;
  modify (λ w, set_eventHandlers (Set_add onEvent (eventHandlers w)) w);;
  open ← get eventSource;
  when (negb open && EventSource_defined) (modify (set_eventSource true));;
  mret onEvent.

(** The closure [connectToEvents] returns. *)
Definition unsubscribe (onEvent : Subscriber) : M unit :=
  modify (λ w, set_eventHandlers (Set_delete onEvent (eventHandlers w)) w);;
  handlers ← get eventHandlers;
  open ← get eventSource;
  when (bool_decide (length handlers = 0) && open) (modify (set_eventSource false)).

Definition disconnect : M unit :=
  open ← get eventSource;
  when open (modify (set_eventSource false));;
  modify (set_eventHandlers []).

(** [eventSource.onmessage], for a message carrying [data]. *)
Definition onmessage (data : jstring) : M unit :=
  try_catch
    (match JSON_parse data with
     | None => throw SyntaxError
     | Some event =>
         handlers ← get eventHandlers;
         for_of handlers (λ _, handleOpenCodeEvent event)
     end)
    (mret tt).

(** *** OpenCodeBackend, the public methods *)

(** [sendPrompt] up to its [await]: a new promise, whose resolve function
    is kept, and [status(running)]. *)
Definition sendPrompt_before_await : M unit :=
  p ← get next_promise;
  modify (set_next_promise (S p));;
  modify (set_responseResolve (Some p));;
  modify (set_responseComplete (Some p));;
  emit (Status running None).

(** [sendPrompt] after its [await]. *)
Definition sendPrompt_after_await : M unit :=
  emit (Status idle None);;
  resolve ← get responseResolve;
  match resolve with
  | Some p =>
      modify (λ w, set_resolved ({[p]} ∪ resolved w) w);;
      modify (set_responseResolve None)
  | None => mret tt
  end.

Definition sendPrompt (sessionId prompt : jstring) (answer : Fetched (option Body))
  : M unit :=
  sendPrompt_before_await;;
  sendMessage sessionId [TextPart prompt] (Some handleStreamChunk) answer;;
  sendPrompt_after_await.

(** [startSession(initialPrompt?)]; the result is the [sessionId] of the
    [StartSessionResult]. [created] answers [createSession], [answer] answers
    the [sendMessage] of the initial prompt, if there is one. *)
Definition startSession (initialPrompt : option jstring)
    (created : Fetched (option OpenCodeSessionCreateResponse))
    (answer : Fetched (option Body)) : M jstring :=
  session ← createSession created;
  modify (set_currentSessionId (Some (session_id session)));;
  unsub ← connectToEvents;
  modify (set_eventUnsubscribe (Some unsub));;
  emit (Status running None);;
  match initialPrompt with
  | Some prompt =>
      if truthy (JStr prompt) then sendPrompt (session_id session) prompt answer
      else mret tt
  | None => mret tt
  end;;
  mret (session_id session).

Definition cancel (sessionId : jstring) (answer : Fetched unit) : M unit :=
  abortSession sessionId answer;;
  emit (Status idle None).

Definition onMessage (handler : Handler) : M unit :=
  modify (λ w, set_messageHandlers (Set_add handler (messageHandlers w)) w).

Definition offMessage (handler : Handler) : M unit :=
  modify (λ w, set_messageHandlers (Set_delete handler (messageHandlers w)) w).

Definition respondToPermission (requestId : jstring) (approved : bool) : M unit :=
  emit (PermissionResponse requestId approved).

Definition dispose : M unit :=
  unsub ← get eventUnsubscribe;
  match unsub with
  | Some u => unsubscribe u;; modify (set_eventUnsubscribe None)
  | None => mret tt
  end;;
  disconnect;;
  modify (set_messageHandlers []);;
  emit (Status stopped None).

(** The fate of a promise made by [sendPrompt]: settled already, or
    fulfilled when the continuation of that [sendPrompt] calls its resolve
    function, which [resolves_in] places on the clock ([None]: never). Such
    a promise is never rejected. *)
Definition fate_of (resolves_in : PromiseId → option N) (p : PromiseId) : M Fate :=
  done ← get resolved;
  if bool_decide (p ∈ done) then mret (Some (0%N, Fulfilled))
  else mret ((λ t, (t, Fulfilled)) <$> resolves_in p).

(** [waitForResponseComplete(timeoutMs = 120000)]; the result is the fate
    of the promise the method returns. *)
Definition waitForResponseComplete (timeoutMs : option N)
    (resolves_in : PromiseId → option N) : M Fate :=
  let timeoutMs := default 120000%N timeoutMs in
  pending ← get responseComplete;
  match pending with
  | None => mret (Some (0%N, Fulfilled))
  | Some p =>
      let timeout := setTimeout_reject timeoutMs (Error (js "Response timeout")) in
      token ← fate_of resolves_in p;
      mret (Promise_race [token; timeout])
  end.

End OpenCode.

(** ** A parser for a fragment of JSON

    [JSON.parse] is a parameter of the development. To run the adapter on
    concrete lines, the parameter is instantiated with this parser of a
    fragment of JSON: objects, arrays, strings with the one-character
    escapes, integers, [true], [false] and [null]. On text outside the
    fragment it answers [None]. *)
Module JsonFragment.

Fixpoint skip_ws (s : jstring) : jstring :=
  match s with
  | c :: s' => if ((c =? 32) || (c =? 9) || (c =? 10) || (c =? 13))%N then skip_ws s' else s
  | [] => []
  end.

Definition unescape (c : N) : option N :=
  (if (c =? 34) || (c =? 92) || (c =? 47) then Some c
   else if c =? 98 then Some 8 else if c =? 102 then Some 12
   else if c =? 110 then Some 10 else if c =? 114 then Some 13
   else if c =? 116 then Some 9 else None)%N.

(** After the opening quote: the string and what follows the closing quote. *)
Fixpoint parse_string (s : jstring) : option (jstring * jstring) :=
  match s with
  | [] => None
  | c :: s' =>
      if (c =? 34)%N then Some ([], s')
      else if (c =? 92)%N then
        match s' with
        | e :: s'' =>
            match unescape e, parse_string s'' with
            | Some u, Some (str, rest) => Some (u :: str, rest)
            | _, _ => None
            end
        | [] => None
        end
      else if (c <? 32)%N then None
      else match parse_string s' with
           | Some (str, rest) => Some (c :: str, rest)
           | None => None
           end
  end.

Definition is_digit (c : N) : bool := ((48 <=? c) && (c <=? 57))%N.

Fixpoint parse_digits (s : jstring) (acc : N) : N * jstring :=
  match s with
  | c :: s' => if is_digit c then parse_digits s' (10 * acc + (c - 48))%N else (acc, s)
  | [] => (acc, [])
  end.

Definition number_of (negative : bool) (n : N) : JsValue :=
  JNum (binary_normalize 53 1024 (if negative then Z.opp (Z.of_N n) else Z.of_N n) 0 negative).

(** An integer literal: an optional minus sign, then [0] or digits that do
    not start with [0]; a fraction or an exponent is outside the fragment. *)
Definition parse_number (s : jstring) : option (JsValue * jstring) :=
  let '(negative, s1) := match s with
                         | c :: s' => if (c =? 45)%N then (true, s') else (false, s)
                         | [] => (false, s)
                         end in
  match s1 with
  | c :: s2 =>
      if negb (is_digit c) then None
      else
        let '(n, rest) := if (c =? 48)%N then (0%N, s2) else parse_digits s1 0 in
        match rest with
        | d :: _ => if is_digit d || (d =? 46)%N || (d =? 101)%N || (d =? 69)%N then None
                    else Some (number_of negative n, rest)
        | [] => Some (number_of negative n, rest)
        end
  | [] => None
  end.

Fixpoint parse_value (fuel : nat) (s : jstring) : option (JsValue * jstring) :=
  match fuel with
  | 0 => None
  | S fuel =>
      match skip_ws s with
      | 110%N :: 117%N :: 108%N :: 108%N :: rest => Some (JNull, rest)
      | 116%N :: 114%N :: 117%N :: 101%N :: rest => Some (JBool true, rest)
      | 102%N :: 97%N :: 108%N :: 115%N :: 101%N :: rest => Some (JBool false, rest)
      | 34%N :: rest =>
          match parse_string rest with
          | Some (str, rest') => Some (JStr str, rest')
          | None => None
          end
      | 91%N :: rest =>
          match skip_ws rest with
          | 93%N :: rest' => Some (JArr [], rest')
          | _ => match parse_elements fuel rest with
                 | Some (l, rest') => Some (JArr l, rest')
                 | None => None
                 end
          end
      | 123%N :: rest =>
          match skip_ws rest with
          | 125%N :: rest' => Some (JObj ∅, rest')
          | _ => match parse_members fuel rest ∅ with
                 | Some (o, rest') => Some (JObj o, rest')
                 | None => None
                 end
          end
      | s' => parse_number s'
      end
  end
with parse_elements (fuel : nat) (s : jstring) : option (list JsValue * jstring) :=
  match fuel with
  | 0 => None
  | S fuel =>
      match parse_value fuel s with
      | Some (v, rest) =>
          match skip_ws rest with
          | 44%N :: rest' =>
              match parse_elements fuel rest' with
              | Some (l, rest'') => Some (v :: l, rest'')
              | None => None
              end
          | 93%N :: rest' => Some ([v], rest')
          | _ => None
          end
      | None => None
      end
  end
with parse_members (fuel : nat) (s : jstring) (acc : gmap jstring JsValue)
    : option (gmap jstring JsValue * jstring) :=
  match fuel with
  | 0 => None
  | S fuel =>
      match skip_ws s with
      | 34%N :: rest =>
          match parse_string rest with
          | Some (key, rest1) =>
              match skip_ws rest1 with
              | 58%N :: rest2 =>
                  match parse_value fuel rest2 with
                  | Some (v, rest3) =>
                      match skip_ws rest3 with
                      | 44%N :: rest4 => parse_members fuel rest4 (<[key := v]> acc)
                      | 125%N :: rest4 => Some (<[key := v]> acc, rest4)
                      | _ => None
                      end
                  | None => None
                  end
              | _ => None
              end
          | None => None
          end
      | _ => None
      end
  end.

Definition parse (s : jstring) : option JsValue :=
  match parse_value (S (length s)) s with
  | Some (v, rest) => match skip_ws rest with [] => Some v | _ => None end
  | None => None
  end.

End JsonFragment.

(** ** Vocabulary of the statements *)

(** An ASCII literal in which the apostrophe stands for the double quote:
    [jsq "{'type':'done'}"] is the text of a JSON object. *)
Definition jsq (s : string) : jstring :=
  map (λ c, if (c =? 39)%N then 34%N else c) (js s).
Arguments jsq s%_string.

(** [o.key] of a record. *)
Definition field (o : gmap jstring JsValue) (key : string) : JsValue :=
  default JUndefined (o !! js key).

(** A line that is empty or holds white space only. *)
Definition blank (s : jstring) : Prop := Forall (λ c, is_white_space c = true) s.

#[global] Instance blank_dec s : Decision (blank s).
Proof. unfold blank. apply _. Defined.

(** What handler calls [emit message] makes, given the registered handlers. *)
Definition deliveries (message : AgentMessage) (handlers : list Handler)
  : list (Handler * AgentMessage) :=
  map (λ h, (h, message)) handlers.

(** The groups of [case] labels of the [switch] in [processOpenCodeData]. *)
Definition text_family : list jstring := [js "text"; js "token"; js "content"].
Definition tool_call_family : list jstring := [js "tool_call"; js "tool-call"].
Definition tool_result_family : list jstring := [js "tool_result"; js "tool-result"].
Definition fs_edit_family : list jstring := [js "file_edit"; js "fs-edit"].
Definition terminal_family : list jstring := [js "terminal"; js "terminal-output"].
Definition permission_family : list jstring :=
  [js "permission_request"; js "permission-request"].
Definition error_family : list jstring := [js "error"].
Definition done_family : list jstring := [js "done"; js "complete"; js "finished"].

Definition families : list (list jstring) :=
  [text_family; tool_call_family; tool_result_family; fs_edit_family;
   terminal_family; permission_family; error_family; done_family].

(** The specification's reading of the alias column, "first present wins":
    the value of the first key of [keys] that the record has. *)
Fixpoint first_present (o : gmap jstring JsValue) (keys : list string) : JsValue :=
  match keys with
  | [] => JUndefined
  | k :: keys' =>
      match o !! js k with
      | Some v => v
      | None => first_present o keys'
      end
  end.

(** A generator of identifiers for the examples: the [k]-th identifier is
    [id-] followed by [k] in decimal. *)
Definition uuid_counter (k : nat) : jstring := js "id-" ++ js_of_N (N.of_nat k).

(** A delivery reduced to the handler and the variant of the message. *)
Definition tag (d : Handler * AgentMessage) : Handler * Variant := (d.1, variant d.2).

(** Two runs that end alike and give every handler messages of the same
    variants, in the same order. *)
Definition same_variants (r1 r2 : Completion unit * World) : Prop :=
  r1.1 = r2.1 ∧ map tag (delivered r1.2) = map tag (delivered r2.2).

(** Whether normalization of [data] reaches a call of [crypto.randomUUID]:
    a tool call with neither a truthy [id] nor a truthy [callId], or a
    permission request without a truthy [id]. *)
Definition draws_fresh_id (data : JsValue) : bool :=
  match data with
  | JObj o =>
      case_of (field o "type") tool_call_family
        && negb (truthy (field o "id" ||| field o "callId"))
      || case_of (field o "type") permission_family && negb (truthy (field o "id"))
  | _ => false
  end.

(** What a run of normalization amounts to when no identifier is drawn. *)
Inductive Outcome :=
| Emits (message : AgentMessage)
| Nothing
| Throws (e : JsError).

Definition run_outcome (out : Outcome) : M unit :=
  match out with
  | Emits message => emit message
  | Nothing => mret tt
  | Throws e => throw e
  end.

(** *** Example answers and worlds *)

Definition created (sid : jstring) : Fetched (option OpenCodeSessionCreateResponse) :=
  Responded (mkResponse true 200 (Some {| session_id := sid |})).

Definition streamed (reads : list jstring) : Fetched (option Body) :=
  Responded (mkResponse true 200 (Some (mkBody reads Done))).

(** A backend on which handler [0] was registered and [startSession()], without
    an initial prompt, created the session [s1]; an [EventSource] exists. *)
Definition listening_session : World :=
  (startSession JsonFragment.parse uuid_counter true None (created (js "s1"))
     NetworkFailure (onMessage 0 new_OpenCodeBackend).2).2.

(** The handler calls caused by emitting [messages] one after the other. *)
Definition emitted (messages : list AgentMessage) (handlers : list Handler)
  : list (Handler * AgentMessage) :=
  flat_map (λ m, deliveries m handlers) messages.

(** *** Lines of a stream *)

(** The text made of the newline-terminated [lines], in order, followed by
    the partial line [trailing]. *)
Definition join_lines (lines : list jstring) (trailing : jstring) : jstring :=
  flat_map (λ l, l ++ [LF]) lines ++ trailing.

(** The test that [sendMessage] puts before each call of [onChunk]. *)
Definition guarded (onChunk : jstring → M unit) (line : jstring) : M unit :=
  if truthy (JStr (trim line)) then onChunk line else mret tt.

(** An [onLine] callback for the examples: it records the line it is called
    with, as a delivery to handler [0]. *)
Definition record_line (line : jstring) : M unit :=
  call_handler (ModelOutput (JStr line)) 0.

(** *** Runs of the adapter

    The methods are asynchronous: between the parts of [sendPrompt] that come
    before and after its [await], other calls and callbacks run. A run is a
    sequence of the synchronous steps below. *)

Inductive Event :=
| CallOnMessage (handler : Handler)
| CallOffMessage (handler : Handler)
| CallStartSession (created : Fetched (option OpenCodeSessionCreateResponse))
| SendBegins
| StreamLine (line : jstring)
| SendEnds
| CallCancel (sessionId : jstring) (answer : Fetched unit)
| CallRespondToPermission (requestId : jstring) (approved : bool)
| CallDispose
| PushMessage (data : jstring).

Section Runs.
Variable JSON_parse : jstring → option JsValue.
Variable randomUUID : nat → jstring.
Variable EventSource_defined : bool.

(** What each step runs. [CallStartSession] is the call without an initial
    prompt; with one, [startSession] goes on as [SendBegins] does. *)
Definition run_event (e : Event) : M unit :=
  match e with
  | CallOnMessage h => onMessage h
  | CallOffMessage h => offMessage h
  | CallStartSession created =>
      startSession JSON_parse randomUUID EventSource_defined None created NetworkFailure;;
      mret tt
  | SendBegins => sendPrompt_before_await
  | StreamLine line => handleStreamChunk JSON_parse randomUUID line
  | SendEnds => sendPrompt_after_await
  | CallCancel sid answer => cancel sid answer
  | CallRespondToPermission id approved => respondToPermission id approved
  | CallDispose => dispose
  | PushMessage data =>
      (* the platform calls [onmessage] only while the EventSource is open *)
      open ← get eventSource;
      when open (onmessage JSON_parse randomUUID data)
  end.

Inductive reachable : World → Prop :=
| reachable_new : reachable new_OpenCodeBackend
| reachable_step w e : reachable w → reachable (run_event e w).2.

End Runs.

(** A computation that leaves the observation [f] of the world as it was. *)
Definition preserves {X A} (f : World → X) (m : M A) : Prop :=
  ∀ w, f (m w).2 = f w.

(** The part of the state that concerns promises. *)
Definition promise_state (w : World)
  : option PromiseId * option PromiseId * gset PromiseId * PromiseId :=
  (responseComplete w, responseResolve w, resolved w, next_promise w).

(** Promise identifiers are handed out in increasing order. *)
Definition promises_ordered (w : World) : Prop :=
  (∀ p, p ∈ resolved w → p < next_promise w)
  ∧ (∀ p, responseResolve w = Some p → p < next_promise w)
  ∧ (∀ p, responseComplete w = Some p → p < next_promise w).

(** *** The two lines of the end-to-end example *)

Definition line_text_Hi : jstring := jsq "{'type':'text','content':'Hi'}".
Definition line_done : jstring := jsq "{'type':'done'}".

(** The records these two lines denote. *)
Definition record_text_Hi : gmap jstring JsValue :=
  <[js "type" := JStr (js "text")]> (<[js "content" := JStr (js "Hi")]> ∅).
Definition record_done : gmap jstring JsValue := <[js "type" := JStr (js "done")]> ∅.

(** The world after [onMessage(h)] and [startSession()] on a new backend,
    the server having answered with session [sid]. *)
Definition started_world (E : bool) (h : Handler) (sid : jstring) : World :=
  mkWorld [h] (Some sid) (Some 0) None None E [0] ∅ 0 1
    [(h, Status running None)] [PostSession] 0.

(** *** Observations for the further properties *)

(** The outcomes of the eight [case] tests of the [switch], in order. *)
Definition dispatch (v : JsValue) : list bool :=
  map (case_of v) families.

(** The result of running a sequence of steps. *)
Definition run_events (JSON_parse : jstring → option JsValue) (randomUUID : nat → jstring)
    (EventSource_defined : bool) (events : list Event) (w : World) : World :=
  foldl (λ w e, (run_event JSON_parse randomUUID EventSource_defined e w).2) w events.

(** The world after some messages were emitted and [n] identifiers drawn;
    nothing else differs from [w]. *)
Definition after_emitting (messages : list AgentMessage) (n : nat) (w : World) : World :=
  set_uuid_calls (uuid_calls w + n)
    (set_delivered (delivered w ++ emitted messages (messageHandlers w)) w).

(** An answer to [sendMessage] with which the call fails: no answer, a
    non-success status, no body, or a read that fails. *)
Definition send_fails (answer : Fetched (option Body)) : Prop :=
  match answer with
  | NetworkFailure => True
  | Responded r =>
      ok r = false ∨ content r = None
      ∨ ∃ body, content r = Some body ∧ stream_end body = ReadError
  end.

(** The message that [processOpenCodeData] builds from a record, as a function
    of the record and of the identifier that the next call of
    [crypto.randomUUID] returns; [None] when nothing is emitted. It follows
    the arms of the [switch] and is related to the method by
    [process_normalize]. *)
Definition normalize (fresh : JsValue) (o : gmap jstring JsValue) : option AgentMessage :=
  if case_of (field o "type") text_family then
    Some (ModelOutput (field o "content" ||| field o "text" ||| field o "delta"))
  else if case_of (field o "type") tool_call_family then
    Some (ToolCall (field o "name" ||| field o "toolName" ||| JStr (js "unknown"))
            (field o "arguments" ||| field o "args" ||| JObj ∅)
            (field o "id" ||| field o "callId" ||| fresh))
  else if case_of (field o "type") tool_result_family then
    Some (ToolResult (field o "name" ||| field o "toolName" ||| JStr (js "unknown"))
            (field o "result" ||| field o "output")
            (field o "id" ||| field o "callId" ||| JStr (js "")))
  else if case_of (field o "type") fs_edit_family then
    Some (FsEdit (field o "description" ||| field o "summary" ||| JStr (js ""))
            (field o "diff") (field o "path"))
  else if case_of (field o "type") terminal_family then
    Some (TerminalOutput (field o "output" ||| field o "data" ||| JStr (js "")))
  else if case_of (field o "type") permission_family then
    Some (PermissionRequest (field o "id" ||| fresh)
            (field o "reason" ||| field o "message" ||| JStr (js ""))
            (field o "payload" ||| JObj o))
  else if case_of (field o "type") error_family then
    Some (Status error
            (Some (field o "message" ||| field o "error" ||| JStr (js "Unknown error"))))
  else if case_of (field o "type") done_family then
    Some (Status idle None)
  else if truthy (field o "text" ||| field o "content") then
    Some (ModelOutput (field o "text" ||| field o "content"))
  else None.

(** A value that is truthy or else the empty string: what an alias chain
    ending in [''] gives. *)
Definition truthy_or_empty (v : JsValue) : Prop := truthy v = true ∨ v = JStr [].

(** What the defaults of the alias table guarantee about a normalized
    message. The normalizer builds no [status] other than [error] with a
    detail and [idle] without one, and no [permission-response]. *)
Definition defaults_applied (m : AgentMessage) : Prop :=
  match m with
  | ModelOutput _ => True
  | ToolCall toolName args callId =>
      truthy toolName = true ∧ truthy args = true ∧ truthy callId = true
  | ToolResult toolName _ callId => truthy toolName = true ∧ truthy_or_empty callId
  | FsEdit description _ _ => truthy_or_empty description
  | TerminalOutput data => truthy_or_empty data
  | PermissionRequest id reason payload =>
      truthy id = true ∧ truthy_or_empty reason ∧ truthy payload = true
  | Status error (Some detail) => truthy detail = true
  | Status idle None => True
  | Status _ _ => False
  | PermissionResponse _ _ => False
  end.

(** A discriminator that no [case] label matches. *)
Definition unrecognized (v : JsValue) : Prop :=
  ∀ t family, v = JStr t → family ∈ families → t ∉ family.

(** The part of the state that concerns listeners and push subscriptions. *)
Definition registry_state (w : World)
  : list Handler * list Subscriber * Subscriber * option Subscriber * bool :=
  (messageHandlers w, eventHandlers w, next_subscriber w, eventUnsubscribe w,
   eventSource w).

(** What holds of the listeners and of the push subscriptions in every state
    that a run reaches: both sets hold no element twice; the closure that
    [dispose] would call is subscribed; and an EventSource is open exactly when
    the platform has one and somebody is subscribed. *)
Definition registry_consistent (EventSource_defined : bool) (w : World) : Prop :=
  NoDup (messageHandlers w)
  ∧ NoDup (eventHandlers w)
  ∧ (∀ s, s ∈ eventHandlers w → s < next_subscriber w)
  ∧ (∀ u, eventUnsubscribe w = Some u → u ∈ eventHandlers w)
  ∧ eventSource w = EventSource_defined && bool_decide (eventHandlers w ≠ []).

(** Nobody listens, and nothing was delivered in between. *)
Definition silent (w w' : World) : Prop :=
  messageHandlers w = [] → messageHandlers w' = [] ∧ delivered w' = delivered w.

(** The promise [p] was created, is not resolved, and its resolve function is
    not the one that the adapter holds. *)
Definition orphaned (p : PromiseId) (w : World) : Prop :=
  (p ∉ resolved w) ∧ responseResolve w ≠ Some p ∧ p < next_promise w.

(** The session filter lets the record through. *)
Definition passes_filter (o : gmap jstring JsValue) (w : World) : Prop :=
  truthy (field o "sessionId") = false
  ∨ ∃ s, field o "sessionId" = JStr s ∧ currentSessionId w = Some s.

(** The field of a message that holds a correlation identifier: the [callId]
    of a [tool-call] and the [id] of a [permission-request]. *)
Definition correlation_id (m : AgentMessage) : JsValue :=
  match m with
  | ToolCall _ _ callId => callId
  | PermissionRequest id _ _ => id
  | _ => JUndefined
  end.

(** ** Configuration: [constants.ts], [new OpenCodeClient], [createOpenCodeBackend] *)

Definition OPENCODE_SERVER_URL_ENV : jstring := js "OPENCODE_SERVER_URL".
Definition OPENCODE_SERVER_PASSWORD_ENV : jstring := js "OPENCODE_SERVER_PASSWORD".
Definition DEFAULT_OPENCODE_SERVER_URL : jstring := js "http://127.0.0.1:4096".

(** [a || b] where both are [string | undefined]. *)
Definition or_undefined (a b : option jstring) : option jstring :=
  match a with
  | Some s => if truthy (JStr s) then a else b
  | None => b
  end.

(** [a || d] where [a] is a [string | undefined] and [d] a string. *)
Definition or_default (a : option jstring) (d : jstring) : jstring :=
  match a with
  | Some s => if truthy (JStr s) then s else d
  | None => d
  end.

(** A [string | undefined] that [||] skips: absent or empty. *)
Definition unset (a : option jstring) : Prop := a = None ∨ a = Some [].

Record OpenCodeClientConfig := {
  config_serverUrl : option jstring;
  config_password : option jstring
}.

(** The two configuration fields of an [OpenCodeClient]. *)
Record OpenCodeClient := {
  serverUrl : jstring;
  password : option jstring
}.

Definition new_OpenCodeClient (config : OpenCodeClientConfig) : OpenCodeClient :=
  {| serverUrl := or_default (config_serverUrl config) DEFAULT_OPENCODE_SERVER_URL;
     password := config_password config |}.

Record OpenCodeBackendOptions := {
  options_serverUrl : option jstring;
  options_password : option jstring;
  options_cwd : option jstring
}.

(** [new OpenCodeBackend(options)]: the client it builds and its own fields. *)
Definition new_OpenCodeBackend_with (options : OpenCodeBackendOptions)
  : OpenCodeClient * World :=
  (new_OpenCodeClient {| config_serverUrl := options_serverUrl options;
                         config_password := options_password options |},
   new_OpenCodeBackend).

Record OpenCodeBackendResult := {
  backend : OpenCodeClient * World;
  result_serverUrl : jstring
}.

(** [createOpenCodeBackend(options)] under the environment [env]
    ([process.env]). *)
Definition createOpenCodeBackend (env : gmap jstring jstring)
    (options : OpenCodeBackendOptions) : OpenCodeBackendResult :=
  let serverUrl :=
    or_default (or_undefined (options_serverUrl options) (env !! OPENCODE_SERVER_URL_ENV))
      DEFAULT_OPENCODE_SERVER_URL in
  let password :=
    or_undefined (options_password options) (env !! OPENCODE_SERVER_PASSWORD_ENV) in
  {| backend := new_OpenCodeBackend_with
                  {| options_serverUrl := Some serverUrl;
                     options_password := password;
                     options_cwd := options_cwd options |};
     result_serverUrl := serverUrl |}.

(** The two clients that [runOpenCode] sets up: the one it probes the server
    with, and the backend it talks through afterwards (with the address it
    shows on screen). *)
Record runOpenCode_clients := {
  openCodeClient : OpenCodeClient;
  created_backend : OpenCodeBackendResult
}.

Definition runOpenCode_setup (env : gmap jstring jstring) (cwd : jstring)
  : runOpenCode_clients :=
  let serverUrl := or_default (env !! OPENCODE_SERVER_URL_ENV) DEFAULT_OPENCODE_SERVER_URL in
  let password := env !! OPENCODE_SERVER_PASSWORD_ENV in
  {| openCodeClient := new_OpenCodeClient {| config_serverUrl := Some serverUrl;
                                             config_password := password |};
     created_backend := createOpenCodeBackend env
                          {| options_serverUrl := Some serverUrl;
                             options_password := password;
                             options_cwd := Some cwd |} |}.

(** ** The health probe of [OpenCodeClient] *)

(** [checkHealth()]; the body is whatever JSON the server sent ([None]: the
    body is not JSON and [response.json()] rejects). The request log of the
    world records the session requests only. *)
Definition checkHealth (answer : Fetched (option JsValue)) : M JsValue :=
  match answer with
  | NetworkFailure => throw TypeError
  | Responded response =>
      if negb (ok response) then
        throw (Error (js "Health check failed: " ++ js_of_N (status response)))
      else match content response with
           | Some health => mret health
           | None => throw SyntaxError
           end
  end.

Definition isServerRunning (answer : Fetched (option JsValue)) : M bool :=
  try_catch (checkHealth answer;; mret true) (mret false).

(** ** What [runOpenCode] shows of a message *)

(** A call on the [MessageBuffer] of the display: the content and the type
    of the buffered message. *)
Inductive BufferCall :=
| updateLastMessage (content : JsValue) (type : jstring)
| addMessage (content : jstring) (type : jstring).

Definition status_name (s : StatusKind) : jstring :=
  match s with
  | running => js "running"
  | idle => js "idle"
  | error => js "error"
  | stopped => js "stopped"
  end.

Section Display.

(** The conversion of a value inside a template literal, and
    [JSON.stringify], which gives [undefined] for some values. *)
Variable ToString : JsValue → jstring.
Variable JSON_stringify : JsValue → option jstring.

(** The handler that [runOpenCode] registers with [backend.onMessage]. *)
Definition runOpenCode_onMessage (msg : AgentMessage) : list BufferCall :=
  match msg with
  | ModelOutput textDelta =>
      if truthy textDelta then [updateLastMessage textDelta (js "assistant")] else []
  | ToolCall toolName _ _ =>
      [addMessage (js "[Tool: " ++ ToString toolName ++ js "]") (js "tool")]
  | ToolResult _ result _ =>
      [addMessage (js "[Result: "
                     ++ default (js "undefined") (JSON_stringify result) ++ js "]")
         (js "result")]
  | Status status _ =>
      [addMessage (js "[Status: " ++ status_name status ++ js "]") (js "status")]
  | _ => []
  end.

(** The calls on the buffer that a sequence of deliveries to the display's
    handler [h] causes. *)
Definition shown (h : Handler) (ds : list (Handler * AgentMessage)) : list BufferCall :=
  flat_map (λ d, if bool_decide (d.1 = h) then runOpenCode_onMessage d.2 else []) ds.

End Display.

(** ** The Fusion client *)

Module Fusion.

(** The [status] of a [FusionSession]. *)
Inductive SessionStatus :=
| pending | provisioning | starting | active | stopping | stopped | error.

(** A [FusionSession], with the fields that the client reads. *)
Record FusionSession := {
  session_id : jstring;
  session_status : SessionStatus;
  session_error : option jstring
}.

Definition checkHealth (answer : Fetched (option JsValue)) : M JsValue :=
  match answer with
  | NetworkFailure => throw TypeError
  | Responded response =>
      if negb (ok response) then
        throw (Error (js "Health check failed: " ++ js_of_N (status response)))
      else match content response with
           | Some health => mret health
           | None => throw SyntaxError
           end
  end.

Definition isServerRunning (answer : Fetched (option JsValue)) : M bool :=
  try_catch
    (health ← checkHealth answer;
     health_status ← prop health "status";
     mret (is_string health_status (js "healthy")))
    (mret false).

Definition getSession (answer : Fetched (option FusionSession))
  : Completion FusionSession :=
  match answer with
  | NetworkFailure => Throw TypeError
  | Responded response =>
      if negb (ok response) then
        Throw (Error (js "Failed to get session: " ++ js_of_N (status response)))
      else match content response with
           | Some session => Normal session
           | None => Throw SyntaxError
           end
  end.

(** One round of [waitForSessionReady] as the environment decides it: the
    answer to [getSession], the milliseconds that the request takes, and the
    milliseconds by which the two-second timer fires late. *)
Record Poll := {
  answer : Fetched (option FusionSession);
  latency : N;
  overrun : N
}.

(** The state of the promise that [waitForSessionReady] returns once the
    described rounds are over. *)
Inductive Waited :=
| Settled (c : Completion FusionSession)
| Waiting.

(** The [while] loop of [waitForSessionReady]; [elapsed] is
    [Date.now() - startTime] at the loop test. The result comes with the
    number of [getSession] requests made. *)
Fixpoint poll_loop (timeoutMs : Z) (elapsed : N) (polls : list Poll) : Waited * nat :=
  if (Z.of_N elapsed <? timeoutMs)%Z then
    match polls with
    | [] => (Waiting, 0)
    | p :: rest =>
        match getSession (answer p) with
        | Throw e => (Settled (Throw e), 1)
        | Normal session =>
            match session_status session with
            | active => (Settled (Normal session), 1)
            | error =>
                (Settled (Throw (Error (js "Session failed: "
                                          ++ or_default (session_error session)
                                               (js "Unknown error")))), 1)
            | stopped => (Settled (Throw (Error (js "Session was stopped"))), 1)
            | _ =>
                let r := poll_loop timeoutMs (elapsed + latency p + 2000 + overrun p) rest in
                (r.1, S r.2)
            end
        end
    end
  else (Settled (Throw (Error (js "Timeout waiting for session to be ready"))), 0).

Definition waitForSessionReady (timeoutMs : Z) (polls : list Poll) : Waited * nat :=
  poll_loop timeoutMs 0 polls.

(** A round after which the loop goes on: the session was fetched and is
    neither active nor failed nor stopped. *)
Definition in_progress (p : Poll) : Prop :=
  ∃ session, getSession (answer p) = Normal session
    ∧ session_status session ∈ [pending; provisioning; starting; stopping].

End Fusion.

(** ** Basic facts *)

Lemma for_of_call_handler m hs w :
  for_of hs (call_handler m) w =
  (Normal tt, set_delivered (delivered w ++ deliveries m hs) w).
Proof.
  revert w. induction hs as [|h hs IH]; intros w; simpl.
  - rewrite app_nil_r. by destruct w.
  - unfold mbind, M_bind, call_handler at 1, modify. rewrite IH. simpl.
    by rewrite <- app_assoc.
Qed.

Lemma emit_run m w :
  emit m w =
  (Normal tt, set_delivered (delivered w ++ deliveries m (messageHandlers w)) w).
Proof. unfold emit, mbind, M_bind, get. apply for_of_call_handler. Qed.

Lemma trimStart_nil s : trimStart s = [] ↔ blank s.
Proof.
  unfold blank. induction s as [|c s IH]; simpl.
  - split; [constructor | done].
  - destruct (is_white_space c) eqn:E.
    + rewrite IH. split; [by constructor | by inversion 1].
    + split; [done | inversion 1; congruence].
Qed.

Lemma trimStart_head s c r : trimStart s = c :: r → is_white_space c = false.
Proof.
  induction s as [|a s IH]; simpl; [done|].
  destruct (is_white_space a) eqn:E; [done | congruence].
Qed.

Lemma trim_nil s : trim s = [] ↔ blank s.
Proof.
  unfold trim. split.
  - intros H. apply trimStart_nil.
    destruct (trimStart s) as [|c r] eqn:E; [done|].
    exfalso. pose proof (trimStart_head _ _ _ E) as Hc.
    apply (f_equal (@rev N)) in H. rewrite rev_involutive in H. simpl in H.
    apply trimStart_nil in H. unfold blank in H.
    apply Forall_app in H as [_ H]. inversion H; congruence.
  - intros H. apply trimStart_nil in H. by rewrite H.
Qed.

Lemma truthy_trim s : truthy (JStr (trim s)) = negb (bool_decide (blank s)).
Proof.
  simpl. f_equal. apply bool_decide_ext, trim_nil.
Qed.

(** [processOpenCodeData] on a record, with the property reads done. *)
Lemma process_obj uuid o :
  processOpenCodeData uuid (JObj o) =
  (if case_of (field o "type") text_family then
     emit (ModelOutput (field o "content" ||| field o "text" ||| field o "delta"))
   else if case_of (field o "type") tool_call_family then
     fresh ← or_randomUUID uuid (field o "id" ||| field o "callId");
     emit (ToolCall (field o "name" ||| field o "toolName" ||| JStr (js "unknown"))
                    (field o "arguments" ||| field o "args" ||| JObj ∅)
                    fresh)
   else if case_of (field o "type") tool_result_family then
     emit (ToolResult (field o "name" ||| field o "toolName" ||| JStr (js "unknown"))
                      (field o "result" ||| field o "output")
                      (field o "id" ||| field o "callId" ||| JStr (js "")))
   else if case_of (field o "type") fs_edit_family then
     emit (FsEdit (field o "description" ||| field o "summary" ||| JStr (js ""))
                  (field o "diff") (field o "path"))
   else if case_of (field o "type") terminal_family then
     emit (TerminalOutput (field o "output" ||| field o "data" ||| JStr (js "")))
   else if case_of (field o "type") permission_family then
     fresh ← or_randomUUID uuid (field o "id");
     emit (PermissionRequest fresh
             (field o "reason" ||| field o "message" ||| JStr (js ""))
             (field o "payload" ||| JObj o))
   else if case_of (field o "type") error_family then
     emit (Status error
             (Some (field o "message" ||| field o "error" ||| JStr (js "Unknown error"))))
   else if case_of (field o "type") done_family then
     emit (Status idle None)
   else if truthy (field o "text" ||| field o "content") then
     emit (ModelOutput (field o "text" ||| field o "content"))
   else mret tt).
Proof.
  unfold processOpenCodeData, prop, mbind, M_bind, mret, M_ret.
  fold (field o "type").
  repeat (destruct (case_of _ _); [reflexivity|]).
  reflexivity.
Qed.

Lemma field_type o ty : o !! js "type" = Some (JStr ty) → field o "type" = JStr ty.
Proof. intros H. unfold field. by rewrite H. Qed.

Lemma case_of_elem ty labels : ty ∈ labels → case_of (JStr ty) labels = true.
Proof.
  intros H. unfold case_of. apply existsb_exists. exists ty. split.
  - by apply list_elem_of_In.
  - simpl. by apply bool_decide_eq_true.
Qed.

(** ** The text family (C4) *)

(** C4, as amended: for a record whose [type] is [text], [token] or
    [content], normalization emits one [model-output] whose [textDelta] is
    the [content] field when that field is truthy, otherwise the [text] field
    when that one is truthy, otherwise the [delta] field as read (undefined
    when absent). A field that is present with a falsy value, such as the
    empty string, does not win. *)
Theorem text_family_first_truthy_wins (uuid : nat → jstring)
    (o : gmap jstring JsValue) (ty : jstring) (w : World) :
  o !! js "type" = Some (JStr ty) →
  ty ∈ text_family →
  processOpenCodeData uuid (JObj o) w =
  emit (ModelOutput
          (if truthy (field o "content") then field o "content"
           else if truthy (field o "text") then field o "text"
           else field o "delta")) w.
Proof.
  intros Hty Hin. rewrite process_obj, (field_type _ _ Hty), (case_of_elem _ _ Hin).
  unfold js_or.
  destruct (truthy (field o "content")) eqn:Ec; [by rewrite Ec|].
  by destruct (truthy (field o "text")) eqn:Et; rewrite ?Et.
Qed.

Lemma text_family_first_truthy_wins_witness :
  let o : gmap jstring JsValue :=
    <[js "type" := JStr (js "token")]> (<[js "text" := JStr (js "x")]> ∅) in
  let w := set_messageHandlers [7] new_OpenCodeBackend in
  delivered (processOpenCodeData uuid_counter (JObj o) w).2 =
  [(7, ModelOutput (JStr (js "x")))].
Proof.
  intros o w.
  rewrite (text_family_first_truthy_wins uuid_counter o (js "token") w).
  - reflexivity.
  - reflexivity.
  - unfold text_family. apply list_elem_of_In. simpl. tauto.
Defined.

(** C4, as stated, fails: the record [{type: 'text', content: '', text: 'x'}]
    has a [content] field, whose value is the empty string, and yet the
    emitted [textDelta] is ['x'], the value of [text]. *)
Lemma text_family_present_empty_content_loses :
  let o : gmap jstring JsValue :=
    <[js "type" := JStr (js "text")]>
      (<[js "content" := JStr (js "")]> (<[js "text" := JStr (js "x")]> ∅)) in
  let w := set_messageHandlers [0] new_OpenCodeBackend in
  o !! js "content" = Some (JStr (js "")) ∧
  first_present o ["content"; "text"; "delta"]%string = JStr (js "") ∧
  delivered (processOpenCodeData uuid_counter (JObj o) w).2 =
    [(0, ModelOutput (JStr (js "x")))] ∧
  processOpenCodeData uuid_counter (JObj o) w ≠
    emit (ModelOutput (first_present o ["content"; "text"; "delta"]%string)) w.
Proof.
  intros o w. split; [|split; [|split]].
  - reflexivity.
  - reflexivity.
  - reflexivity.
  - intros H. apply (f_equal (λ r, delivered r.2)) in H. vm_compute in H. discriminate H.
Qed.

(** ** Lines that are not JSON (C5) *)

(** C5: a stream line on which [JSON.parse] throws never makes
    [handleStreamChunk] throw; when the line is not blank every registered
    handler receives exactly one message, [model-output] with the line
    itself as [textDelta], and when it is blank (empty or white space only)
    nothing is emitted and nothing changes. *)
Theorem malformed_line_passthrough (JSON_parse : jstring → option JsValue)
    (uuid : nat → jstring) (line : jstring) (w : World) :
  JSON_parse line = None →
  (¬ blank line →
     handleStreamChunk JSON_parse uuid line w =
     (Normal tt,
      set_delivered
        (delivered w ++ deliveries (ModelOutput (JStr line)) (messageHandlers w)) w))
  ∧ (blank line → handleStreamChunk JSON_parse uuid line w = (Normal tt, w))
  ∧ (∃ w', handleStreamChunk JSON_parse uuid line w = (Normal tt, w')).
Proof.
  intros Hparse.
  assert (Hrun : handleStreamChunk JSON_parse uuid line w =
                 if bool_decide (blank line) then (Normal tt, w)
                 else emit (ModelOutput (JStr line)) w).
  { unfold handleStreamChunk, try_catch. rewrite Hparse. unfold throw.
    rewrite truthy_trim. by destruct (bool_decide (blank line)). }
  rewrite Hrun. split; [|split].
  - intros Hnb. rewrite bool_decide_eq_false_2 by done. apply emit_run.
  - intros Hb. by rewrite bool_decide_eq_true_2.
  - destruct (bool_decide (blank line)); [by eexists|].
    rewrite emit_run. by eexists.
Qed.

Lemma malformed_line_passthrough_witness :
  let w := set_messageHandlers [0; 1] new_OpenCodeBackend in
  handleStreamChunk JsonFragment.parse uuid_counter (js "not json {") w =
  (Normal tt,
   set_delivered [(0, ModelOutput (JStr (js "not json {")));
                  (1, ModelOutput (JStr (js "not json {")))] w)
  ∧ handleStreamChunk JsonFragment.parse uuid_counter (js "   ") w = (Normal tt, w).
Proof.
  intros w. split.
  - apply (malformed_line_passthrough JsonFragment.parse uuid_counter (js "not json {") w).
    + reflexivity.
    + intros H. apply trimStart_nil in H. vm_compute in H. discriminate H.
  - apply (malformed_line_passthrough JsonFragment.parse uuid_counter (js "   ") w).
    + reflexivity.
    + apply trimStart_nil. reflexivity.
Defined.

(** ** Spellings of the discriminator (C3) *)

Lemma field_insert_type o v : field (<[js "type" := v]> o) "type" = v.
Proof. unfold field. by rewrite lookup_insert_eq. Qed.

Lemma field_insert_other o v k :
  js "type" ≠ js k → field (<[js "type" := v]> o) k = field o k.
Proof. intros H. unfold field. by rewrite lookup_insert_ne. Qed.

Lemma same_variants_emit m1 m2 w :
  variant m1 = variant m2 → same_variants (emit m1 w) (emit m2 w).
Proof.
  intros H. rewrite !emit_run. split; [done|]. simpl.
  rewrite !map_app. f_equal. unfold deliveries. rewrite !map_map.
  apply map_ext. intros h. unfold tag. simpl. by rewrite H.
Qed.

Lemma same_variants_fresh uuid x (g1 g2 : JsValue → AgentMessage) w :
  (∀ v, variant (g1 v) = variant (g2 v)) →
  same_variants ((fresh ← or_randomUUID uuid x; emit (g1 fresh)) w)
                ((fresh ← or_randomUUID uuid x; emit (g2 fresh)) w).
Proof.
  intros H. unfold or_randomUUID, mbind, M_bind, crypto_randomUUID.
  destruct (truthy x); simpl; by apply same_variants_emit.
Qed.

(** Decide every [case] test on a literal discriminator. *)
Ltac eval_cases :=
  repeat match goal with
    | |- context [case_of (JStr ?t) ?l] =>
        let b := eval vm_compute in (case_of (JStr t) l) in
        change (case_of (JStr t) l) with b
    end; cbv iota.

Ltac other_field := intros Hkey; vm_compute in Hkey; discriminate Hkey.

Ltac enumerate H :=
  repeat (apply elem_of_cons in H as [->|H]); [..|by apply elem_of_nil in H].

(** C3: the spellings that the dispatch groups under one family are
    equivalent inputs. For every record, putting any two discriminators of
    one family ([tool_call] and [tool-call], [tool_result] and [tool-result],
    [file_edit] and [fs-edit], [terminal] and [terminal-output],
    [permission_request] and [permission-request], and likewise within
    text/token/content and done/complete/finished) in its [type] field
    makes normalization end the same way and hand every handler a message
    of the same canonical variant. *)
Theorem family_spellings_same_variant (uuid : nat → jstring) (family : list jstring)
    (t1 t2 : jstring) (o : gmap jstring JsValue) (w : World) :
  family ∈ families → t1 ∈ family → t2 ∈ family →
  same_variants (processOpenCodeData uuid (JObj (<[js "type" := JStr t1]> o)) w)
                (processOpenCodeData uuid (JObj (<[js "type" := JStr t2]> o)) w).
Proof.
  intros HF H1 H2. rewrite !process_obj, !field_insert_type.
  rewrite !field_insert_other by other_field.
  unfold families in HF. enumerate HF.
  all: enumerate H1.
  all: enumerate H2.
  all: eval_cases.
  all: first [ by apply same_variants_emit | by apply same_variants_fresh ].
Qed.

Lemma family_spellings_same_variant_witness :
  let o : gmap jstring JsValue := <[js "name" := JStr (js "grep")]> ∅ in
  let w := set_messageHandlers [3] new_OpenCodeBackend in
  same_variants
    (processOpenCodeData uuid_counter (JObj (<[js "type" := JStr (js "tool_call")]> o)) w)
    (processOpenCodeData uuid_counter (JObj (<[js "type" := JStr (js "tool-call")]> o)) w)
  ∧ map tag
      (delivered
         (processOpenCodeData uuid_counter
            (JObj (<[js "type" := JStr (js "tool-call")]> o)) w).2) = [(3, VToolCall)].
Proof.
  intros o w. split.
  - apply (family_spellings_same_variant uuid_counter tool_call_family).
    + unfold families. apply list_elem_of_In. simpl. tauto.
    + unfold tool_call_family. apply list_elem_of_In. simpl. tauto.
    + unfold tool_call_family. apply list_elem_of_In. simpl. tauto.
  - reflexivity.
Defined.

(** The dispatch compares the discriminator with the listed labels and with
    nothing else: [file-edit], which is [file_edit] with a hyphen for the
    underscore, is in no family, and neither is [terminal_output]. *)
Lemma unlisted_spellings :
  Forall (λ family, (js "file-edit" ∉ family) ∧ (js "terminal_output" ∉ family)) families.
Proof.
  unfold families. repeat constructor.
  all: intros H; apply list_elem_of_In in H; vm_compute in H; intuition discriminate.
Qed.

(** ** The session filter on push events (C6, C10) *)

Lemma handle_event_obj uuid o w :
  handleOpenCodeEvent uuid (JObj o) w =
  if truthy (field o "sessionId") && strict_ne (field o "sessionId") (currentSessionId w)
  then (Normal tt, w)
  else processOpenCodeData uuid (JObj o) w.
Proof.
  unfold handleOpenCodeEvent, prop, mbind, M_bind, mret, M_ret, get.
  fold (field o "sessionId"). by destruct (_ && _).
Qed.

(** C6, as amended: whatever the state of the adapter, a push event whose
    [sessionId] is a non-empty string different from the current session
    handle is discarded: no handler is called and the state is unchanged. *)
Theorem foreign_session_event_discarded (uuid : nat → jstring)
    (event : gmap jstring JsValue) (sid : jstring) (w : World) :
  event !! js "sessionId" = Some (JStr sid) →
  sid ≠ [] →
  currentSessionId w ≠ Some sid →
  handleOpenCodeEvent uuid (JObj event) w = (Normal tt, w).
Proof.
  intros Hsid Hne Hcur. rewrite handle_event_obj. unfold field. rewrite Hsid. simpl.
  rewrite bool_decide_eq_false_2 by done. simpl.
  destruct (currentSessionId w) as [c|]; [|done].
  rewrite bool_decide_eq_false_2; [done | congruence].
Qed.

Lemma foreign_session_event_discarded_witness :
  ∃ event,
    JsonFragment.parse (jsq "{'type':'text','content':'x','sessionId':'s2'}")
      = Some (JObj event)
    ∧ handleOpenCodeEvent uuid_counter (JObj event) listening_session
      = (Normal tt, listening_session).
Proof.
  eexists. split; [reflexivity|].
  apply (foreign_session_event_discarded uuid_counter _ (js "s2")).
  - reflexivity.
  - discriminate.
  - vm_compute. discriminate.
Defined.

(** C6, as stated, fails: on a started adapter whose session is [s1] and on
    which handler [0] listens, the push event
    [{"type":"text","content":"x","sessionId":""}] carries a [sessionId], the
    empty string, that differs from [s1], and yet handler [0] receives
    [model-output{textDelta: 'x'}]. *)
Lemma empty_sessionId_event_is_forwarded :
  let data := jsq "{'type':'text','content':'x','sessionId':''}" in
  currentSessionId listening_session = Some (js "s1")
  ∧ (∃ event, JsonFragment.parse data = Some (JObj event)
              ∧ event !! js "sessionId" = Some (JStr (js "")))
  ∧ js "" ≠ js "s1"
  ∧ delivered (onmessage JsonFragment.parse uuid_counter data listening_session).2
    = delivered listening_session ++ [(0, ModelOutput (JStr (js "x")))].
Proof.
  intros data. split; [reflexivity|]. split; [|split].
  - eexists. split; reflexivity.
  - discriminate.
  - reflexivity.
Qed.

(** C10: a push event record without a [sessionId] field, or whose
    [sessionId] is the empty string, is handed to normalization whatever the
    current session handle is; an event that is not handed to normalization
    carries a [sessionId] that is not the empty string and is not the current
    handle; and an event without [sessionId] does reach a listener of an
    adapter whose session is [s1]. *)
Theorem event_without_sessionId_bypasses_filter :
  (∀ (uuid : nat → jstring) (event : gmap jstring JsValue) (w : World),
     event !! js "sessionId" = None ∨ event !! js "sessionId" = Some (JStr []) →
     handleOpenCodeEvent uuid (JObj event) w = processOpenCodeData uuid (JObj event) w)
  ∧ (∀ (uuid : nat → jstring) (event : gmap jstring JsValue) (w : World),
       handleOpenCodeEvent uuid (JObj event) w ≠ processOpenCodeData uuid (JObj event) w →
       ∃ v, event !! js "sessionId" = Some v ∧ v ≠ JStr []
            ∧ ∀ s, v = JStr s → currentSessionId w ≠ Some s)
  ∧ (∃ (event : gmap jstring JsValue),
       event !! js "sessionId" = None
       ∧ currentSessionId listening_session = Some (js "s1")
       ∧ delivered (handleOpenCodeEvent uuid_counter (JObj event) listening_session).2
         = delivered listening_session ++ [(0, ModelOutput (JStr (js "x")))]).
Proof.
  split; [|split].
  - intros uuid event w H. rewrite handle_event_obj. unfold field.
    by destruct H as [-> | ->].
  - intros uuid event w H. rewrite handle_event_obj in H. unfold field in H.
    destruct (event !! js "sessionId") as [v|] eqn:E; simpl in H; [|done].
    exists v. split; [done|].
    destruct (truthy v) eqn:Ev; simpl in H; [|done].
    destruct (strict_ne v (currentSessionId w)) eqn:Es; [|done].
    split.
    + intros ->. vm_compute in Ev. discriminate Ev.
    + intros s -> Hcur. rewrite Hcur in Es. simpl in Es.
      by rewrite bool_decide_eq_true_2 in Es.
  - exists (<[js "type" := JStr (js "text")]> (<[js "content" := JStr (js "x")]> ∅)).
    split; [reflexivity|]. split; reflexivity.
Qed.

Lemma event_without_sessionId_bypasses_filter_witness :
  let event : gmap jstring JsValue :=
    <[js "type" := JStr (js "done")]> (<[js "sessionId" := JStr (js "")]> ∅) in
  handleOpenCodeEvent uuid_counter (JObj event) listening_session
  = processOpenCodeData uuid_counter (JObj event) listening_session
  ∧ delivered (handleOpenCodeEvent uuid_counter (JObj event) listening_session).2
    = delivered listening_session ++ [(0, Status idle None)].
Proof.
  intros event. split.
  - apply (proj1 event_without_sessionId_bypasses_filter). right. reflexivity.
  - reflexivity.
Defined.

(** ** dispose (C8) *)

Lemma dispose_run w :
  dispose w =
  (Normal tt,
   set_messageHandlers []
     (set_eventHandlers [] (set_eventSource false (set_eventUnsubscribe None w)))).
Proof.
  unfold dispose, unsubscribe, disconnect, emit, when, mbind, M_bind, mret, M_ret,
    get, modify.
  destruct w as [mh cs eu rc rr es eh rs np ns dl rq uc]. simpl.
  destruct eu as [u|]; simpl.
  - destruct (bool_decide (length (Set_delete u eh) = 0) && es); simpl;
      destruct es; reflexivity.
  - destruct es; reflexivity.
Qed.

(** C8, the defect: [dispose] empties [messageHandlers] before it emits
    [status(stopped)], so the emission reaches nobody. On the started adapter
    with listener [0], [dispose()] returns normally, and the listener has
    received [status(running)] only; in general [dispose] never adds a
    delivery. *)
Theorem dispose_notifies_no_listener :
  messageHandlers listening_session = [0]
  ∧ (dispose listening_session).1 = Normal tt
  ∧ delivered (dispose listening_session).2 = [(0, Status running None)]
  ∧ ∀ w, delivered (dispose w).2 = delivered w.
Proof.
  split; [reflexivity|]. split; [reflexivity|]. split; [reflexivity|].
  intros w. by rewrite dispose_run.
Qed.

(** X27: the rest of the contract of [dispose] holds: after [dispose] there
    is no push subscription, the client is disconnected and no listener is
    left; a second [dispose] returns normally and changes nothing. *)
Lemma dispose_releases_and_is_idempotent w :
  let w' := (dispose w).2 in
  eventUnsubscribe w' = None ∧ eventHandlers w' = [] ∧ eventSource w' = false
  ∧ messageHandlers w' = []
  ∧ dispose w' = (Normal tt, w').
Proof.
  rewrite !dispose_run. simpl. repeat split.
Qed.

(** ** Normalization and fresh identifiers (C9) *)

Lemma run_outcome_spec out :
  ∃ (c : Completion unit) (messages : list AgentMessage), ∀ w,
    run_outcome out w =
    (c, set_delivered (delivered w ++ emitted messages (messageHandlers w)) w).
Proof.
  destruct out as [m| |e].
  - exists (Normal tt), [m]. intros w. simpl. rewrite emit_run.
    unfold emitted. simpl. by rewrite app_nil_r.
  - exists (Normal tt), []. intros w. simpl. rewrite app_nil_r. by destruct w.
  - exists (Throw e), []. intros w. simpl. rewrite app_nil_r. by destruct w.
Qed.

Lemma process_without_fresh_id data :
  draws_fresh_id data = false →
  ∃ out, ∀ uuid w, processOpenCodeData uuid data w = run_outcome out w.
Proof.
  intros Hd. destruct data as [| |b|x|s|l|o].
  1,2: by exists (Throws TypeError).
  1-4: by exists Nothing.
  unfold draws_fresh_id in Hd. apply orb_false_elim in Hd as [Htool Hperm].
  pose proof (λ uuid, process_obj uuid o) as Hp. cbv beta in Hp.
  destruct (case_of (field o "type") text_family).
  { eexists (Emits _). intros uuid w. by rewrite Hp. }
  destruct (case_of (field o "type") tool_call_family).
  { simpl in Htool. apply negb_false_iff in Htool.
    eexists (Emits _). intros uuid w. rewrite Hp. unfold or_randomUUID.
    rewrite Htool. reflexivity. }
  destruct (case_of (field o "type") tool_result_family).
  { eexists (Emits _). intros uuid w. by rewrite Hp. }
  destruct (case_of (field o "type") fs_edit_family).
  { eexists (Emits _). intros uuid w. by rewrite Hp. }
  destruct (case_of (field o "type") terminal_family).
  { eexists (Emits _). intros uuid w. by rewrite Hp. }
  destruct (case_of (field o "type") permission_family).
  { simpl in Hperm. apply negb_false_iff in Hperm.
    eexists (Emits _). intros uuid w. rewrite Hp. unfold or_randomUUID.
    rewrite Hperm. reflexivity. }
  destruct (case_of (field o "type") error_family).
  { eexists (Emits _). intros uuid w. by rewrite Hp. }
  destruct (case_of (field o "type") done_family).
  { eexists (Emits _). intros uuid w. by rewrite Hp. }
  destruct (truthy (field o "text" ||| field o "content")).
  - eexists (Emits _). intros uuid w. by rewrite Hp.
  - exists Nothing. intros uuid w. by rewrite Hp.
Qed.

(** C9, as amended: when normalization of a value draws no fresh identifier
    (it is not a tool call lacking both a truthy [id] and a truthy [callId],
    nor a permission request lacking a truthy [id]), its result is a function
    of the value alone: the way it ends and the messages it emits are the
    same for every generator and every state, and in particular for a first
    application and a second one that follows it. *)
Theorem normalization_repeatable_without_fresh_id (data : JsValue) :
  draws_fresh_id data = false →
  ∃ (c : Completion unit) (messages : list AgentMessage),
    ∀ (uuid : nat → jstring) (w : World),
      let first := processOpenCodeData uuid data w in
      let second := processOpenCodeData uuid data first.2 in
      first.1 = c ∧ second.1 = c
      ∧ delivered first.2 = delivered w ++ emitted messages (messageHandlers w)
      ∧ delivered second.2 = delivered first.2 ++ emitted messages (messageHandlers w).
Proof.
  intros Hd. destruct (process_without_fresh_id data Hd) as [out Hout].
  destruct (run_outcome_spec out) as (c & messages & Hrun).
  exists c, messages. intros uuid w. simpl.
  rewrite !Hout, !Hrun. simpl. done.
Qed.

Lemma normalization_repeatable_without_fresh_id_witness :
  let data := JObj (<[js "type" := JStr (js "tool_call")]>
                      (<[js "callId" := JStr (js "c1")]> ∅)) in
  let w := set_messageHandlers [0] new_OpenCodeBackend in
  ∃ (c : Completion unit) (messages : list AgentMessage),
    (processOpenCodeData uuid_counter data w).1 = c
    ∧ delivered (processOpenCodeData uuid_counter data w).2
      = delivered w ++ emitted messages (messageHandlers w)
    ∧ delivered
        (processOpenCodeData uuid_counter data
           (processOpenCodeData uuid_counter data w).2).2
      = delivered (processOpenCodeData uuid_counter data w).2
        ++ emitted messages (messageHandlers w).
Proof.
  intros data w.
  destruct (normalization_repeatable_without_fresh_id data) as (c & messages & H).
  - reflexivity.
  - exists c, messages. destruct (H uuid_counter w) as (H1 & _ & H3 & H4).
    split; [exact H1|]. split; [exact H3 | exact H4].
Defined.

(** C9, as stated, fails: normalizing the record [{type: 'tool_call'}] twice
    gives two [tool-call] messages whose [callId] differ, the first and the
    second identifier drawn from the generator. *)
Lemma normalization_draws_fresh_callId :
  let data := JObj (<[js "type" := JStr (js "tool_call")]> ∅) in
  let w := set_messageHandlers [0] new_OpenCodeBackend in
  let first := processOpenCodeData uuid_counter data w in
  let second := processOpenCodeData uuid_counter data first.2 in
  delivered first.2
    = [(0, ToolCall (JStr (js "unknown")) (JObj ∅) (JStr (js "id-0")))]
  ∧ delivered second.2
    = delivered first.2
      ++ [(0, ToolCall (JStr (js "unknown")) (JObj ∅) (JStr (js "id-1")))]
  ∧ ToolCall (JStr (js "unknown")) (JObj ∅) (JStr (js "id-0"))
    ≠ ToolCall (JStr (js "unknown")) (JObj ∅) (JStr (js "id-1")).
Proof.
  intros data w first second. split; [reflexivity|]. split; [reflexivity|].
  intros H. vm_compute in H. discriminate H.
Qed.

(** ** The transport splits the stream into lines (C2) *)

Lemma pop_snoc {A} (l : list A) x : pop (l ++ [x]) = (Some x, l).
Proof. unfold pop. rewrite rev_app_distr. simpl. by rewrite rev_involutive. Qed.

Lemma split_LF_snoc a :
  ∃ init last, split_LF a = init ++ [last]
    ∧ ∀ b, split_LF (a ++ b) = init ++ split_LF (last ++ b).
Proof.
  induction a as [|c a (init & last & Hs & Happ)].
  - exists [], []. split; [done|]. intros b. done.
  - simpl. destruct (c =? LF)%N eqn:Ec.
    + exists ([] :: init), last. split; [by rewrite Hs|].
      intros b. by rewrite Happ.
    + destruct init as [|l ls].
      * exists [], (c :: last). rewrite Hs. split; [done|].
        intros b. rewrite Happ. simpl. by rewrite Ec.
      * exists ((c :: l) :: ls), last. rewrite Hs. split; [done|].
        intros b. by rewrite Happ.
Qed.

Lemma split_LF_last a init last :
  split_LF a = init ++ [last] → split_LF last = [last].
Proof.
  intros H. destruct (split_LF_snoc a) as (init' & last' & Hs & Happ).
  rewrite H in Hs. apply app_inj_tail in Hs as [-> ->].
  specialize (Happ []). rewrite !app_nil_r, H in Happ.
  by apply app_inv_head in Happ.
Qed.

Lemma split_LF_app a b init last :
  split_LF a = init ++ [last] → split_LF (a ++ b) = init ++ split_LF (last ++ b).
Proof.
  intros H. destruct (split_LF_snoc a) as (init' & last' & Hs & Happ).
  rewrite H in Hs. apply app_inj_tail in Hs as [-> ->]. apply Happ.
Qed.

Lemma for_of_app {A} (l1 l2 : list A) (f : A → M unit) w :
  for_of (l1 ++ l2) f w = (for_of l1 f;; for_of l2 f) w.
Proof.
  revert w. induction l1 as [|x l1 IH]; intros w; simpl; [done|].
  unfold mbind, M_bind in *. destruct (f x w) as [[[]|e] w']; [|done].
  apply IH.
Qed.

Lemma for_of_guarded (f : jstring → M unit) lines w :
  for_of lines (guarded f) w = for_of (filter (λ l, ¬ blank l) lines) f w.
Proof.
  revert w. induction lines as [|l lines IH]; intros w; cbn [for_of]; [done|].
  change (guarded f l) with (if truthy (JStr (trim l)) then f l else mret tt).
  rewrite truthy_trim.
  rewrite filter_cons. destruct (decide (¬ blank l)) as [Hnb|Hb].
  - rewrite bool_decide_eq_false_2 by done. simpl.
    unfold mbind, M_bind. destruct (f l w) as [[[]|e] w']; [apply IH|done].
  - apply dec_stable in Hb. rewrite bool_decide_eq_true_2 by done. simpl.
    unfold mbind, M_bind, mret, M_ret. apply IH.
Qed.

Lemma read_loop_spec (f : jstring → M unit) reads :
  ∀ buffer init last w,
    split_LF buffer = [buffer] →
    split_LF (buffer ++ concat reads) = init ++ [last] →
    read_loop (Some f) reads buffer w =
    (for_of (filter (λ l, ¬ blank l) init) f;; mret last) w.
Proof.
  induction reads as [|value reads IH]; intros buffer init last w Hbuf Hsplit.
  - simpl in *. rewrite app_nil_r, Hbuf in Hsplit.
    destruct init as [|x [|y init]]; simplify_eq/=; done.
  - simpl in Hsplit. rewrite app_assoc in Hsplit.
    destruct (split_LF_snoc (buffer ++ value)) as (init1 & last1 & Hs1 & _).
    rewrite (split_LF_app _ _ _ _ Hs1) in Hsplit.
    pose proof (split_LF_last _ _ _ Hs1) as Hlast1.
    destruct (split_LF_snoc (last1 ++ concat reads)) as (init2 & last2 & Hs2 & _).
    rewrite Hs2, app_assoc in Hsplit. apply app_inj_tail in Hsplit as [<- <-].
    cbn [read_loop]. rewrite Hs1, pop_snoc.
    assert (Hnew : (if truthy (JStr last1) then last1 else js "") = last1).
    { simpl. case_bool_decide; simpl; [by subst|done]. }
    rewrite Hnew. rewrite list.filter_app.
    unfold mbind, M_bind.
    change (λ line : jstring, if truthy (JStr (trim line)) then f line else mret ())
      with (guarded f).
    rewrite for_of_guarded, for_of_app. unfold mbind, M_bind.
    destruct (for_of (filter (λ l, ¬ blank l) init1) f w) as [[[]|e] w1]; [|done].
    rewrite (IH last1 init2 last2 w1 Hlast1 Hs2). done.
Qed.

Lemma split_LF_no_LF t : LF ∉ t → split_LF t = [t].
Proof.
  induction t as [|c t IH]; [done|]. intros H.
  apply not_elem_of_cons in H as [Hc Ht]. simpl.
  destruct (N.eqb_spec c LF) as [->|_]; [done|]. by rewrite IH.
Qed.

Lemma split_LF_line l rest :
  LF ∉ l → split_LF (l ++ LF :: rest) = l :: split_LF rest.
Proof.
  induction l as [|c l IH]; intros H; simpl.
  - done.
  - apply not_elem_of_cons in H as [Hc Hl].
    destruct (N.eqb_spec c LF) as [->|_]; [done|]. by rewrite IH.
Qed.

Lemma split_LF_join lines trailing :
  Forall (λ l, LF ∉ l) lines → LF ∉ trailing →
  split_LF (join_lines lines trailing) = lines ++ [trailing].
Proof.
  intros Hl Ht. unfold join_lines. induction Hl as [|l lines Hl _ IH]; simpl.
  - by apply split_LF_no_LF.
  - rewrite <- !app_assoc. simpl. rewrite split_LF_line by done. by rewrite IH.
Qed.

Lemma bind_ret_tt (m : M unit) w : (m;; mret tt) w = m w.
Proof. unfold mbind, M_bind, mret, M_ret. by destruct (m w) as [[[]|e] w']. Qed.

Lemma sendMessage_lines sid parts (f : jstring → M unit) reads init last w :
  split_LF (concat reads) = init ++ [last] →
  sendMessage sid parts (Some f) (streamed reads) w =
  (fetch (PostMessage sid parts);;
   for_of (filter (λ l, ¬ blank l) init ++ (if decide (blank last) then [] else [last])) f) w.
Proof.
  intros Hsplit. unfold sendMessage, streamed. cbn [ok content negb values stream_end].
  unfold mbind at 1 3, M_bind at 1 3, fetch, modify.
  set (w1 := set_requests _ w).
  unfold mbind at 1, M_bind at 1.
  rewrite (read_loop_spec f reads (js "") init last w1) by done.
  rewrite for_of_app. unfold mbind, M_bind, mret, M_ret.
  destruct (for_of (filter (λ l, ¬ blank l) init) f w1) as [[[]|e] w2]; [|done].
  rewrite truthy_trim. destruct (decide (blank last)) as [Hb|Hnb].
  - by rewrite bool_decide_eq_true_2.
  - rewrite bool_decide_eq_false_2 by done. simpl.
    symmetry. apply bind_ret_tt.
Qed.

(** C2, as amended: whatever the chunks in which the stream arrives, when
    the whole stream is the newline-terminated [lines] followed by the partial
    line [trailing], [sendMessage] calls [onLine] exactly once for each
    complete line that is not blank, in the order of arrival, each call with
    one whole line, and then once more with the trailing partial line if and
    only if that one is not blank. Blank lines, complete or trailing, are
    skipped. *)
Theorem transport_delivers_nonblank_lines (sessionId : jstring)
    (parts : list OpenCodeMessagePart) (onLine : jstring → M unit)
    (reads lines : list jstring) (trailing : jstring) (w : World) :
  Forall (λ l, LF ∉ l) lines → LF ∉ trailing →
  concat reads = join_lines lines trailing →
  sendMessage sessionId parts (Some onLine) (streamed reads) w =
  (fetch (PostMessage sessionId parts);;
   for_of (filter (λ l, ¬ blank l) lines
           ++ (if decide (blank trailing) then [] else [trailing])) onLine) w.
Proof.
  intros Hl Ht Hc. apply sendMessage_lines. rewrite Hc. by apply split_LF_join.
Qed.

Lemma transport_delivers_nonblank_lines_witness :
  delivered
    (sendMessage (js "s1") [TextPart (js "hello")] (Some record_line)
       (streamed [js "a"; [98; LF; 32; LF; 99]%N; js "d"]) new_OpenCodeBackend).2
  = [(0, ModelOutput (JStr (js "ab"))); (0, ModelOutput (JStr (js "cd")))].
Proof.
  rewrite (transport_delivers_nonblank_lines (js "s1") [TextPart (js "hello")] record_line
             [js "a"; [98; LF; 32; LF; 99]%N; js "d"] [js "ab"; js " "] (js "cd")).
  - reflexivity.
  - repeat constructor; vm_compute; intros H; apply list_elem_of_In in H;
      simpl in H; intuition discriminate.
  - vm_compute. intros H. apply list_elem_of_In in H. simpl in H. intuition discriminate.
  - reflexivity.
Defined.

(** C2, as stated, fails. The stream made of a single newline holds exactly
    one complete line, the empty one, and [onLine] is not called at all; the
    stream made of a single space ends with a non-empty partial line, and that
    line is not flushed. *)
Lemma transport_skips_blank_lines :
  concat [[LF]] = join_lines [[]] []
  ∧ delivered
      (sendMessage (js "s1") [] (Some record_line) (streamed [[LF]]) new_OpenCodeBackend).2
    = []
  ∧ delivered (for_of [[]] record_line new_OpenCodeBackend).2
    = [(0, ModelOutput (JStr []))]
  ∧ concat [js " "] = join_lines [] (js " ")
  ∧ js " " ≠ []
  ∧ delivered
      (sendMessage (js "s1") [] (Some record_line) (streamed [js " "]) new_OpenCodeBackend).2
    = [].
Proof.
  repeat split; try reflexivity. discriminate.
Qed.

(** ** waitForResponseComplete (C7) *)

Lemma wait_run timeoutMs resolves_in w :
  waitForResponseComplete timeoutMs resolves_in w =
  (Normal
     match responseComplete w with
     | None => Some (0%N, Fulfilled)
     | Some p =>
         Promise_race
           [ (if bool_decide (p ∈ resolved w) then Some (0%N, Fulfilled)
              else (λ t, (t, Fulfilled)) <$> resolves_in p);
             setTimeout_reject (default 120000%N timeoutMs)
               (Error (js "Response timeout")) ]
     end, w).
Proof.
  unfold waitForResponseComplete, fate_of, mbind, M_bind, mret, M_ret, get.
  destruct (responseComplete w) as [p|]; [|done].
  by destruct (bool_decide (p ∈ resolved w)).
Qed.

Lemma wait_settled timeoutMs resolves_in w p :
  responseComplete w = Some p → p ∈ resolved w →
  (waitForResponseComplete timeoutMs resolves_in w).1 = Normal (Some (0%N, Fulfilled)).
Proof.
  intros Hp Hin. rewrite wait_run, Hp. rewrite bool_decide_eq_true_2 by done. simpl.
  by destruct (N.ltb_spec (default 120000%N timeoutMs) 0); [lia|].
Qed.

(** C7: [waitForResponseComplete(timeoutMs = 120000)] never changes the state
    of the adapter or of its client (it sends no request, so the remote
    operation is not cancelled), and the promise it returns
    - is fulfilled at once when no response is pending, that is when there is
      no response promise or that promise is settled already;
    - is fulfilled at the instant the response promise is resolved, when a send
      is in flight and that instant comes before the deadline;
    - is rejected with [Error('Response timeout')] at the deadline, when a send
      is in flight and its promise is resolved later than the deadline or
      never;
    the deadline being [timeoutMs] milliseconds after the call, 120000 when
    the argument is omitted. *)
Theorem waitForResponseComplete_semantics (timeoutMs : option N)
    (resolves_in : PromiseId → option N) (w : World) :
  let deadline := default 120000%N timeoutMs in
  let r := waitForResponseComplete timeoutMs resolves_in w in
  r.2 = w
  ∧ (responseComplete w = None → r.1 = Normal (Some (0%N, Fulfilled)))
  ∧ (∀ p, responseComplete w = Some p → p ∈ resolved w →
          r.1 = Normal (Some (0%N, Fulfilled)))
  ∧ (∀ p t, responseComplete w = Some p → p ∉ resolved w →
            resolves_in p = Some t → (t < deadline)%N →
            r.1 = Normal (Some (t, Fulfilled)))
  ∧ (∀ p, responseComplete w = Some p → p ∉ resolved w →
          (resolves_in p = None ∨ ∃ t, resolves_in p = Some t ∧ (deadline < t)%N) →
          r.1 = Normal (Some (deadline, Rejected (Error (js "Response timeout"))))).
Proof.
  intros deadline r. subst r. rewrite wait_run. simpl. fold deadline.
  split; [done|]. split; [by intros ->|]. split; [|split].
  - intros p Hp Hin. pose proof (wait_settled timeoutMs resolves_in w p Hp Hin) as H.
    rewrite wait_run in H. exact H.
  - intros p t -> Hp -> Ht. rewrite bool_decide_eq_false_2 by done. simpl.
    unfold setTimeout_reject.
    destruct (N.ltb_spec deadline t); [lia|done].
  - intros p -> Hp H. rewrite bool_decide_eq_false_2 by done.
    destruct H as [-> | (t & -> & Ht)]; simpl; [done|].
    unfold setTimeout_reject. destruct (N.ltb_spec deadline t); [done|lia].
Qed.

Lemma sendPrompt_before_await_run w :
  sendPrompt_before_await w =
  (Normal tt,
   set_delivered (delivered w ++ deliveries (Status running None) (messageHandlers w))
     (set_responseComplete (Some (next_promise w))
        (set_responseResolve (Some (next_promise w))
           (set_next_promise (S (next_promise w)) w)))).
Proof.
  unfold sendPrompt_before_await, mbind, M_bind, get, modify. by rewrite emit_run.
Qed.

Lemma sendPrompt_after_await_run w :
  sendPrompt_after_await w =
  (Normal tt,
   let w1 := set_delivered
               (delivered w ++ deliveries (Status idle None) (messageHandlers w)) w in
   match responseResolve w with
   | Some p => set_responseResolve None (set_resolved ({[p]} ∪ resolved w) w1)
   | None => w1
   end).
Proof.
  unfold sendPrompt_after_await, mbind, M_bind, get, modify. rewrite emit_run. simpl.
  by destruct (responseResolve w).
Qed.

(** *** Steps that do not touch the promises *)

Section Preserves.
Context {X : Type} (f : World → X).

Lemma preserves_ret {A} (a : A) : preserves f (mret a).
Proof. by intros w. Qed.

Lemma preserves_throw {A} e : preserves f (@throw A e).
Proof. by intros w. Qed.

Lemma preserves_get {A} (g : World → A) : preserves f (get g).
Proof. by intros w. Qed.

Lemma preserves_modify g : (∀ w, f (g w) = f w) → preserves f (modify g).
Proof. intros H w. apply H. Qed.

Lemma preserves_bind {A B} (m : M A) (k : A → M B) :
  preserves f m → (∀ a, preserves f (k a)) → preserves f (m ≫= k).
Proof.
  intros Hm Hk w. unfold mbind, M_bind. specialize (Hm w).
  destruct (m w) as [[a|e] w']; simpl in *; [|done]. by rewrite Hk.
Qed.

Lemma preserves_try_catch {A} (body handler : M A) :
  preserves f body → preserves f handler → preserves f (try_catch body handler).
Proof.
  intros Hb Hh w. unfold try_catch. specialize (Hb w).
  destruct (body w) as [[a|e] w']; simpl in *; [done|]. by rewrite Hh.
Qed.

Lemma preserves_for_of {A} (xs : list A) (body : A → M unit) :
  (∀ x, preserves f (body x)) → preserves f (for_of xs body).
Proof.
  intros Hb. induction xs as [|x xs IH]; simpl.
  - apply preserves_ret.
  - apply preserves_bind; [apply Hb | intros _; apply IH].
Qed.

Lemma preserves_when b (m : M unit) : preserves f m → preserves f (when b m).
Proof. intros H. destruct b; [done | apply preserves_ret]. Qed.

End Preserves.

Ltac preserves_step :=
  match goal with
  | |- preserves _ (_ ≫= _) => apply preserves_bind; [|intros ?]
  | |- preserves _ (mret _) => apply preserves_ret
  | |- preserves _ (throw _) => apply preserves_throw
  | |- preserves _ (get _) => apply preserves_get
  | |- preserves _ (modify _) => apply preserves_modify; intros ?; reflexivity
  | |- preserves _ (try_catch _ _) => apply preserves_try_catch
  | |- preserves _ (for_of _ _) => apply preserves_for_of; intros ?
  | |- preserves _ (when _ _) => apply preserves_when
  | |- preserves _ (if ?b then _ else _) => destruct b
  | |- preserves _ (match ?x with _ => _ end) => destruct x
  end.

Ltac preserves := repeat preserves_step.

Lemma emit_promise_state m : preserves promise_state (emit m).
Proof. unfold emit, call_handler. preserves. Qed.

Lemma process_promise_state uuid data : preserves promise_state (processOpenCodeData uuid data).
Proof.
  unfold processOpenCodeData, prop, or_randomUUID.
  preserves; try apply emit_promise_state; by intros w.
Qed.

Lemma handleStreamChunk_promise_state JSON_parse uuid chunk :
  preserves promise_state (handleStreamChunk JSON_parse uuid chunk).
Proof.
  unfold handleStreamChunk. preserves;
    first [apply process_promise_state | apply emit_promise_state].
Qed.

Lemma run_event_promise_state JSON_parse uuid E e :
  e ≠ SendBegins → e ≠ SendEnds →
  preserves promise_state (run_event JSON_parse uuid E e).
Proof.
  intros Hb He. destruct e; try done; simpl.
  all: unfold onMessage, offMessage, startSession, createSession, connectToEvents, cancel,
         abortSession, fetch, respondToPermission, dispose, unsubscribe, disconnect,
         onmessage, handleOpenCodeEvent, prop.
  all: preserves;
         first [apply process_promise_state | apply emit_promise_state
               | apply handleStreamChunk_promise_state].
Qed.

Lemma promises_ordered_state w w' :
  promise_state w' = promise_state w → promises_ordered w → promises_ordered w'.
Proof.
  unfold promise_state, promises_ordered. intros [= -> -> -> ->]. done.
Qed.

Lemma reachable_promises_ordered JSON_parse uuid E w :
  reachable JSON_parse uuid E w → promises_ordered w.
Proof.
  induction 1 as [|w e _ (Hres & Hrr & Hrc)].
  - repeat split; intros p; [set_solver | done | done].
  - assert (He : e = SendBegins ∨ e = SendEnds ∨ (e ≠ SendBegins ∧ e ≠ SendEnds))
      by (destruct e; auto).
    destruct He as [->|[->|[Hb He]]].
    + simpl. rewrite sendPrompt_before_await_run. simpl.
      repeat split; simpl; intros p.
      * intros Hp. apply Hres in Hp. lia.
      * intros [= <-]. lia.
      * intros [= <-]. lia.
    + simpl. rewrite sendPrompt_after_await_run. simpl.
      destruct (responseResolve w) as [q|] eqn:Eq; repeat split; simpl; intros p;
        try done; auto.
      * intros [->%elem_of_singleton|Hp]%elem_of_union; auto.
      * by rewrite Eq.
    + eapply promises_ordered_state; [|done].
      by apply run_event_promise_state.
Qed.

(** A send is in flight from the first part of [sendPrompt] on ... *)
Lemma send_in_flight JSON_parse uuid E w :
  reachable JSON_parse uuid E w →
  let w' := (sendPrompt_before_await w).2 in
  responseComplete w' = Some (next_promise w) ∧ next_promise w ∉ resolved w'.
Proof.
  intros (Hres & _)%reachable_promises_ordered.
  rewrite sendPrompt_before_await_run. simpl. split; [done|].
  intros Hin. apply Hres in Hin. lia.
Qed.

(** ... while the lines of the stream are handled and push events arrive ... *)
Lemma in_flight_while_streaming JSON_parse uuid E e w :
  e ≠ SendBegins → e ≠ SendEnds →
  responseComplete (run_event JSON_parse uuid E e w).2 = responseComplete w
  ∧ resolved (run_event JSON_parse uuid E e w).2 = resolved w.
Proof.
  intros Hb He. pose proof (run_event_promise_state JSON_parse uuid E e Hb He w) as H.
  unfold promise_state in H. by injection H as -> _ -> _.
Qed.

(** ... until the second part of [sendPrompt] resolves the promise. *)
Lemma send_completion_settles w p :
  responseResolve w = Some p → p ∈ resolved (sendPrompt_after_await w).2.
Proof.
  intros H. rewrite sendPrompt_after_await_run. simpl. rewrite H. simpl. set_solver.
Qed.

Lemma waitForResponseComplete_semantics_witness :
  let w := (sendPrompt_before_await listening_session).2 in
  (waitForResponseComplete (Some 50%N) (λ _, Some 40%N) w).1
    = Normal (Some (40%N, Fulfilled))
  ∧ (waitForResponseComplete (Some 50%N) (λ _, None) w).1
    = Normal (Some (50%N, Rejected (Error (js "Response timeout"))))
  ∧ (waitForResponseComplete None (λ _, None) listening_session).1
    = Normal (Some (0%N, Fulfilled)).
Proof.
  intros w.
  assert (Hp : responseComplete w = Some 0) by (vm_compute; reflexivity).
  assert (Hn : 0 ∉ resolved w).
  { subst w. rewrite sendPrompt_before_await_run. simpl. 
    change (resolved listening_session) with (∅ : gset nat). set_solver. }
  split; [|split].
  - destruct (waitForResponseComplete_semantics (Some 50%N) (λ _, Some 40%N) w)
      as (_ & _ & _ & H & _).
    apply (H 0 40%N Hp Hn); [reflexivity | simpl; lia].
  - destruct (waitForResponseComplete_semantics (Some 50%N) (λ _, None) w)
      as (_ & _ & _ & _ & H).
    apply (H 0 Hp Hn). by left.
  - destruct (waitForResponseComplete_semantics None (λ _, None) listening_session)
      as (_ & H & _).
    apply H. vm_compute. reflexivity.
Defined.

(** ** One send cycle, end to end (C1) *)

Lemma handleStreamChunk_parsed JSON_parse uuid line o w :
  JSON_parse line = Some (JObj o) →
  handleStreamChunk JSON_parse uuid line w =
  try_catch (processOpenCodeData uuid (JObj o)) 
    (if truthy (JStr (trim line)) then emit (ModelOutput (JStr line)) else mret tt) w.
Proof. intros H. unfold handleStreamChunk. by rewrite H. Qed.

Lemma not_blank_line_text_Hi : ¬ blank line_text_Hi.
Proof. intros H. apply trimStart_nil in H. vm_compute in H. discriminate H. Qed.

Lemma not_blank_line_done : ¬ blank line_done.
Proof. intros H. apply trimStart_nil in H. vm_compute in H. discriminate H. Qed.

Lemma startSession_run JSON_parse uuid E h sid unused :
  startSession JSON_parse uuid E None (created sid) unused (onMessage h new_OpenCodeBackend).2
  = (Normal sid, started_world E h sid).
Proof. by destruct E. Qed.

Lemma stream_of_two_lines JSON_parse uuid sid reads w :
  concat reads = join_lines [line_text_Hi; line_done] []
  ∨ concat reads = join_lines [line_text_Hi] line_done →
  sendMessage sid [TextPart (js "hello")] (Some (handleStreamChunk JSON_parse uuid))
    (streamed reads) w =
  (fetch (PostMessage sid [TextPart (js "hello")]);;
   for_of [line_text_Hi; line_done] (handleStreamChunk JSON_parse uuid)) w.
Proof.
  intros [Hr|Hr].
  - rewrite (sendMessage_lines _ _ _ _ [line_text_Hi; line_done] []) by by rewrite Hr.
    rewrite !filter_cons, filter_nil.
    rewrite !decide_True by auto using not_blank_line_text_Hi, not_blank_line_done.
    rewrite decide_True by constructor. done.
  - rewrite (sendMessage_lines _ _ _ _ [line_text_Hi] line_done) by by rewrite Hr.
    rewrite !filter_cons, filter_nil.
    rewrite decide_True by auto using not_blank_line_text_Hi.
    rewrite decide_False by auto using not_blank_line_done. done.
Qed.

Lemma field_record_text_Hi :
  field record_text_Hi "type" = JStr (js "text")
  ∧ field record_text_Hi "content" = JStr (js "Hi").
Proof. split; vm_compute; reflexivity. Qed.

Lemma field_record_done : field record_done "type" = JStr (js "done").
Proof. vm_compute; reflexivity. Qed.

Lemma process_record_text_Hi uuid w :
  processOpenCodeData uuid (JObj record_text_Hi) w = emit (ModelOutput (JStr (js "Hi"))) w.
Proof.
  rewrite process_obj. destruct field_record_text_Hi as [-> ->]. eval_cases.
  reflexivity.
Qed.

Lemma process_record_done uuid w :
  processOpenCodeData uuid (JObj record_done) w = emit (Status idle None) w.
Proof.
  rewrite process_obj, field_record_done. eval_cases. reflexivity.
Qed.

Lemma handleStreamChunk_text_Hi JSON_parse uuid w :
  JSON_parse line_text_Hi = Some (JObj record_text_Hi) →
  handleStreamChunk JSON_parse uuid line_text_Hi w = emit (ModelOutput (JStr (js "Hi"))) w.
Proof.
  intros H. rewrite (handleStreamChunk_parsed _ _ _ _ _ H). unfold try_catch.
  rewrite process_record_text_Hi, emit_run. reflexivity.
Qed.

Lemma handleStreamChunk_done JSON_parse uuid w :
  JSON_parse line_done = Some (JObj record_done) →
  handleStreamChunk JSON_parse uuid line_done w = emit (Status idle None) w.
Proof.
  intros H. rewrite (handleStreamChunk_parsed _ _ _ _ _ H). unfold try_catch.
  rewrite process_record_done, emit_run. reflexivity.
Qed.

Lemma sendPrompt_run JSON_parse uuid E h sid reads :
  JSON_parse line_text_Hi = Some (JObj record_text_Hi) →
  JSON_parse line_done = Some (JObj record_done) →
  concat reads = join_lines [line_text_Hi; line_done] []
  ∨ concat reads = join_lines [line_text_Hi] line_done →
  sendPrompt JSON_parse uuid sid (js "hello") (streamed reads) (started_world E h sid) =
    (Normal tt,
     mkWorld [h] (Some sid) (Some 0) (Some 0) None E [0] ({[0]} ∪ ∅) 1 1
       ([(h, Status running None)]
        ++ [(h, Status running None); (h, ModelOutput (JStr (js "Hi")));
            (h, Status idle None); (h, Status idle None)])
       [PostSession; PostMessage sid [TextPart (js "hello")]] 0).
Proof.
  intros Htext Hdone Hreads. unfold sendPrompt.
  unfold mbind at 1, M_bind at 1. rewrite sendPrompt_before_await_run.
  unfold mbind at 1, M_bind at 1. rewrite (stream_of_two_lines _ _ _ _ _ Hreads).
  unfold mbind at 1, M_bind at 1, fetch, modify. cbn [for_of].
  unfold mbind at 1, M_bind at 1.
  rewrite (handleStreamChunk_text_Hi _ _ _ Htext), emit_run.
  unfold mbind at 1, M_bind at 1.
  rewrite (handleStreamChunk_done _ _ _ Hdone), emit_run. unfold mret, M_ret.
  rewrite sendPrompt_after_await_run. reflexivity.
Qed.

(** C1, as amended: on a new backend with one registered listener,
    [startSession()] makes the listener receive [status(running)]; then a
    [sendPrompt(id, 'hello')] whose stream, however it is cut into chunks,
    consists of the two lines [{"type":"text","content":"Hi"}] and
    [{"type":"done"}] (the second one newline-terminated or not) makes the
    listener receive, in this order and nothing else, [status(running)],
    [model-output{textDelta: 'Hi'}], [status(idle)] and a second
    [status(idle)]: the first [idle] comes from the [done] line, the second
    from the end of the stream. Afterwards [waitForResponseComplete] is
    fulfilled at once, whatever its timeout. *)
Theorem send_cycle_observed (JSON_parse : jstring → option JsValue)
    (uuid : nat → jstring) (E : bool) (h : Handler) (sid : jstring)
    (unused : Fetched (option Body)) (reads : list jstring) :
  JSON_parse line_text_Hi = Some (JObj record_text_Hi) →
  JSON_parse line_done = Some (JObj record_done) →
  concat reads = join_lines [line_text_Hi; line_done] []
  ∨ concat reads = join_lines [line_text_Hi] line_done →
  let w0 := (onMessage h new_OpenCodeBackend).2 in
  let started := startSession JSON_parse uuid E None (created sid) unused w0 in
  let sent := sendPrompt JSON_parse uuid sid (js "hello") (streamed reads) started.2 in
  started.1 = Normal sid
  ∧ delivered started.2 = [(h, Status running None)]
  ∧ sent.1 = Normal tt
  ∧ delivered sent.2 =
      delivered started.2
      ++ [(h, Status running None); (h, ModelOutput (JStr (js "Hi")));
          (h, Status idle None); (h, Status idle None)]
  ∧ ∀ timeoutMs resolves_in,
      (waitForResponseComplete timeoutMs resolves_in sent.2).1
      = Normal (Some (0%N, Fulfilled)).
Proof.
  intros Htext Hdone Hreads w0 started sent. subst sent started w0.
  rewrite startSession_run. cbn [fst snd].
  rewrite (sendPrompt_run _ _ _ _ _ _ Htext Hdone Hreads). cbn [fst snd].
  do 4 (split; [reflexivity|]).
  intros timeoutMs resolves_in. apply (wait_settled _ _ _ 0); [reflexivity|].
  cbn [resolved]. set_solver.
Qed.

Lemma send_cycle_observed_witness :
  let started :=
    startSession JsonFragment.parse uuid_counter true None (created (js "s1"))
      NetworkFailure (onMessage 0 new_OpenCodeBackend).2 in
  let sent :=
    sendPrompt JsonFragment.parse uuid_counter (js "s1") (js "hello")
      (streamed [line_text_Hi ++ [LF]; line_done ++ [LF]]) started.2 in
  delivered sent.2 =
    [(0, Status running None);
     (0, Status running None); (0, ModelOutput (JStr (js "Hi")));
     (0, Status idle None); (0, Status idle None)]
  ∧ (waitForResponseComplete None (λ _, None) sent.2).1 = Normal (Some (0%N, Fulfilled)).
Proof.
  intros started sent.
  destruct (send_cycle_observed JsonFragment.parse uuid_counter true 0 (js "s1")
              NetworkFailure [line_text_Hi ++ [LF]; line_done ++ [LF]])
    as (_ & H2 & _ & H4 & H5).
  - vm_compute. reflexivity.
  - vm_compute. reflexivity.
  - left. vm_compute. reflexivity.
  - split.
    + fold started sent in H4, H2. rewrite H4, H2. reflexivity.
    + apply H5.
Defined.

(** C1, as stated, fails: in the send cycle the listener receives four
    messages, not three; [status(idle)] comes twice. *)
Lemma send_cycle_ends_with_two_idle :
  let started :=
    startSession JsonFragment.parse uuid_counter true None (created (js "s1"))
      NetworkFailure (onMessage 0 new_OpenCodeBackend).2 in
  let sent :=
    sendPrompt JsonFragment.parse uuid_counter (js "s1") (js "hello")
      (streamed [line_text_Hi ++ [LF]; line_done ++ [LF]]) started.2 in
  delivered started.2 = [(0, Status running None)]
  ∧ delivered sent.2 =
      delivered started.2
      ++ [(0, Status running None); (0, ModelOutput (JStr (js "Hi")));
          (0, Status idle None); (0, Status idle None)]
  ∧ delivered sent.2 ≠
      delivered started.2
      ++ [(0, Status running None); (0, ModelOutput (JStr (js "Hi")));
          (0, Status idle None)].
Proof.
  intros started sent. split; [vm_compute; reflexivity|].
  split; [vm_compute; reflexivity|].
  intros H. vm_compute in H. discriminate H.
Qed.

(** ** Further properties of the normalizer *)

Ltac decide_literals :=
  repeat match goal with
    | |- context [bool_decide (?a = ?b)] =>
        let v := eval vm_compute in (bool_decide (a = b)) in
        change (bool_decide (a = b)) with v
    end.

(** At most one [case] arm matches a discriminator. *)
Lemma dispatch_one_hot v :
  dispatch v ∈
    [ [true; false; false; false; false; false; false; false];
      [false; true; false; false; false; false; false; false];
      [false; false; true; false; false; false; false; false];
      [false; false; false; true; false; false; false; false];
      [false; false; false; false; true; false; false; false];
      [false; false; false; false; false; true; false; false];
      [false; false; false; false; false; false; true; false];
      [false; false; false; false; false; false; false; true];
      [false; false; false; false; false; false; false; false] ].
Proof.
  unfold dispatch, families, case_of, text_family, tool_call_family, tool_result_family,
    fs_edit_family, terminal_family, permission_family, error_family, done_family.
  destruct v as [| |b|x|t|l|o]; try (apply list_elem_of_In; simpl; tauto).
  cbn [map existsb is_string].
  repeat match goal with
    | |- context [bool_decide (t = ?l)] =>
        destruct (decide (t = l)) as [->|Hne];
        [ decide_literals; apply list_elem_of_In; simpl; tauto
        | rewrite (bool_decide_eq_false_2 _ Hne); clear Hne ]
    end.
  apply list_elem_of_In; simpl; tauto.
Qed.

Lemma after_emitting_nothing w : after_emitting [] 0 w = w.
Proof.
  unfold after_emitting, emitted. simpl. rewrite app_nil_r, Nat.add_0_r. by destruct w.
Qed.

Lemma after_emitting_twice ms1 n1 ms2 n2 w :
  after_emitting ms2 n2 (after_emitting ms1 n1 w) = after_emitting (ms1 ++ ms2) (n1 + n2) w.
Proof.
  unfold after_emitting, emitted. simpl.
  rewrite flat_map_app, app_assoc, Nat.add_assoc. reflexivity.
Qed.

Lemma emit_after m w : emit m w = (Normal tt, after_emitting [m] 0 w).
Proof.
  rewrite emit_run. unfold after_emitting, emitted. simpl.
  rewrite app_nil_r, Nat.add_0_r. by destruct w.
Qed.

Lemma fresh_emit_after uuid x (g : JsValue → AgentMessage) w :
  ∃ m, (fresh ← or_randomUUID uuid x; emit (g fresh)) w =
       (Normal tt, after_emitting [m] (if truthy x then 0 else 1) w).
Proof.
  unfold or_randomUUID, mbind, M_bind, crypto_randomUUID.
  destruct (truthy x); simpl.
  - eexists. apply emit_after.
  - eexists. rewrite emit_run. unfold after_emitting, emitted. simpl.
    by rewrite app_nil_r, Nat.add_1_r.
Qed.

(** The shape of every run of [processOpenCodeData]. *)
Lemma process_shape uuid data w :
  ∃ c om,
    processOpenCodeData uuid data w =
      (c, after_emitting (option_list om) (if draws_fresh_id data then 1 else 0) w)
    ∧ (c = Normal tt
       ∨ c = Throw TypeError ∧ om = None ∧ draws_fresh_id data = false
         ∧ (data = JNull ∨ data = JUndefined)).
Proof.
  destruct data as [| |b|x|s|l|o].
  1,2: exists (Throw TypeError), None; simpl; rewrite after_emitting_nothing;
    (split; [reflexivity|]); right; repeat split; auto.
  1-4: exists (Normal tt), None; simpl; rewrite after_emitting_nothing;
    (split; [reflexivity | by left]).
  rewrite process_obj. unfold draws_fresh_id.
  pose proof (dispatch_one_hot (field o "type")) as Hd.
  unfold dispatch, families in Hd. cbn [map] in Hd.
  set (c1 := case_of _ text_family) in *. set (c2 := case_of _ tool_call_family) in *.
  set (c3 := case_of _ tool_result_family) in *. set (c4 := case_of _ fs_edit_family) in *.
  set (c5 := case_of _ terminal_family) in *. set (c6 := case_of _ permission_family) in *.
  set (c7 := case_of _ error_family) in *. set (c8 := case_of _ done_family) in *.
  clearbody c1 c2 c3 c4 c5 c6 c7 c8.
  repeat (apply elem_of_cons in Hd as [Hd|Hd]); [..|by apply elem_of_nil in Hd].
  all: injection Hd as -> -> -> -> -> -> -> ->; cbn [andb orb negb].
  1,3,4,5,7,8: eexists (Normal tt), (Some _); split; [apply emit_after | by left].
  - destruct (fresh_emit_after uuid (field o "id" ||| field o "callId")
                (ToolCall (field o "name" ||| field o "toolName" ||| JStr (js "unknown"))
                   (field o "arguments" ||| field o "args" ||| JObj ∅)) w) as [m Hm].
    exists (Normal tt), (Some m). split; [|by left]. rewrite Hm.
    by destruct (truthy _).
  - destruct (fresh_emit_after uuid (field o "id")
                (λ fresh, PermissionRequest fresh
                   (field o "reason" ||| field o "message" ||| JStr (js ""))
                   (field o "payload" ||| JObj o)) w) as [m Hm].
    exists (Normal tt), (Some m). split; [|by left]. rewrite Hm.
    by destruct (truthy _).
  - destruct (truthy (field o "text" ||| field o "content")).
    + eexists (Normal tt), (Some _); split; [apply emit_after | by left].
    + exists (Normal tt), None. simpl. rewrite after_emitting_nothing.
      split; [reflexivity | by left].
Qed.

(** X1: normalization emits at most one message. Whatever the value handed
    to [processOpenCodeData], the listeners receive at most one message, each
    of them the same one; an identifier is drawn exactly for a tool call or
    a permission request that brings none; nothing else of the adapter
    changes (listeners, session handle, subscriptions, promises, requests);
    and the only exception is the [TypeError] of reading the type of [null]
    or [undefined], which leaves the adapter as it was. *)
Theorem normalization_emits_at_most_one_message (uuid : nat → jstring)
    (data : JsValue) (w : World) :
  let r := processOpenCodeData uuid data w in
  (∃ om : option AgentMessage,
     delivered r.2 = delivered w ++ emitted (option_list om) (messageHandlers w))
  ∧ uuid_calls r.2 = uuid_calls w + (if draws_fresh_id data then 1 else 0)
  ∧ messageHandlers r.2 = messageHandlers w
  ∧ currentSessionId r.2 = currentSessionId w
  ∧ eventUnsubscribe r.2 = eventUnsubscribe w
  ∧ promise_state r.2 = promise_state w
  ∧ eventSource r.2 = eventSource w
  ∧ eventHandlers r.2 = eventHandlers w
  ∧ requests r.2 = requests w
  ∧ (r.1 = Normal tt
     ∨ r.1 = Throw TypeError ∧ r.2 = w ∧ (data = JNull ∨ data = JUndefined)).
Proof.
  intros r. subst r.
  destruct (process_shape uuid data w) as (c & om & -> & Hc). simpl.
  split; [by exists om|]. do 8 (split; [reflexivity|]).
  destruct Hc as [->|(-> & -> & -> & Hd)]; [by left|right].
  simpl. by rewrite after_emitting_nothing.
Qed.

Lemma js_or_unfold a b : a ||| b = if truthy a then a else b.
Proof. reflexivity. Qed.

Lemma truthy_js_or a b : truthy (a ||| b) = truthy a || truthy b.
Proof. unfold js_or. by destruct (truthy a) eqn:E. Qed.

(** [processOpenCodeData] on a record is [normalize] with the next identifier,
    followed by the emission of its result. *)
Lemma process_normalize uuid o w :
  processOpenCodeData uuid (JObj o) w =
  (Normal tt,
   after_emitting (option_list (normalize (JStr (uuid (uuid_calls w))) o))
     (if draws_fresh_id (JObj o) then 1 else 0) w).
Proof.
  rewrite process_obj. unfold normalize, draws_fresh_id.
  pose proof (dispatch_one_hot (field o "type")) as Hd.
  unfold dispatch, families in Hd. cbn [map] in Hd.
  set (c1 := case_of _ text_family) in *. set (c2 := case_of _ tool_call_family) in *.
  set (c3 := case_of _ tool_result_family) in *. set (c4 := case_of _ fs_edit_family) in *.
  set (c5 := case_of _ terminal_family) in *. set (c6 := case_of _ permission_family) in *.
  set (c7 := case_of _ error_family) in *. set (c8 := case_of _ done_family) in *.
  clearbody c1 c2 c3 c4 c5 c6 c7 c8.
  repeat (apply elem_of_cons in Hd as [Hd|Hd]); [..|by apply elem_of_nil in Hd].
  all: injection Hd as -> -> -> -> -> -> -> ->; cbn [andb orb negb option_list].
  1,3,4,5,7,8: apply emit_after.
  - rewrite (js_or_unfold (field o "id" ||| field o "callId")).
    unfold or_randomUUID, crypto_randomUUID, mbind, M_bind.
    destruct (truthy (field o "id" ||| field o "callId")); simpl.
    + apply emit_after.
    + rewrite emit_run. unfold after_emitting, emitted. simpl.
      by rewrite app_nil_r, Nat.add_1_r.
  - rewrite (js_or_unfold (field o "id")).
    unfold or_randomUUID, crypto_randomUUID, mbind, M_bind.
    destruct (truthy (field o "id")); simpl.
    + apply emit_after.
    + rewrite emit_run. unfold after_emitting, emitted. simpl.
      by rewrite app_nil_r, Nat.add_1_r.
  - destruct (truthy (field o "text" ||| field o "content")); simpl.
    + apply emit_after.
    + by rewrite after_emitting_nothing.
Qed.

Lemma truthy_or_empty_default a : truthy_or_empty (a ||| JStr (js "")).
Proof.
  unfold truthy_or_empty, js_or. destruct (truthy a) eqn:E; [by left | by right].
Qed.

Lemma truthy_default a (d : JsValue) : truthy d = true → truthy (a ||| d) = true.
Proof. intros H. rewrite truthy_js_or, H. apply orb_true_r. Qed.

Lemma normalize_defaults fresh o m :
  truthy fresh = true → normalize fresh o = Some m → defaults_applied m.
Proof.
  intros Hf. unfold normalize.
  repeat match goal with
         | |- (if ?b then _ else _) = _ → _ => destruct b
         end;
    intros [= <-]; simpl;
    repeat split; auto using truthy_or_empty_default, truthy_default.
Qed.

Lemma elem_of_emitted h m ms hs : (h, m) ∈ emitted ms hs → m ∈ ms ∧ h ∈ hs.
Proof.
  unfold emitted, deliveries. intros H. apply list_elem_of_In, in_flat_map in H.
  destruct H as (m' & Hm' & H). apply in_map_iff in H as (h' & [= -> ->] & Hh).
  split; by apply list_elem_of_In.
Qed.

Lemma uuid_counter_nonempty k : uuid_counter k ≠ [].
Proof. unfold uuid_counter. discriminate. Qed.

(** X2: the defaults of the alias table. Whatever the record, a message that
    normalization hands to a listener has the fields that the table gives a
    default: a [tool-call] has a truthy [toolName], [args] and [callId]; a
    [tool-result] a truthy [toolName] and a [callId] that is truthy or ['']; the
    text of [fs-edit] and [terminal-output] and the reason of a
    [permission-request] are truthy or ['']; a [permission-request] has a
    truthy [id] and [payload]; an error status a truthy detail. The generator
    is assumed to return non-empty identifiers. *)
Theorem normalized_fields_are_defaulted (uuid : nat → jstring)
    (o : gmap jstring JsValue) (w : World) (h : Handler) (m : AgentMessage) :
  (∀ k, uuid k ≠ []) →
  (h, m) ∈ delivered (processOpenCodeData uuid (JObj o) w).2 →
  (h, m) ∈ delivered w ∨ defaults_applied m.
Proof.
  intros Huuid. rewrite process_normalize. simpl.
  intros [Hold|Hnew]%elem_of_app; [by left|right].
  apply elem_of_emitted in Hnew as [Hm _].
  destruct (normalize _ o) as [m'|] eqn:Hn; simpl in Hm; [|by apply elem_of_nil in Hm].
  apply list_elem_of_singleton in Hm as ->.
  apply (normalize_defaults (JStr (uuid (uuid_calls w))) o); [|done].
  simpl. by rewrite bool_decide_eq_false_2.
Qed.

Lemma normalized_fields_are_defaulted_witness :
  let o : gmap jstring JsValue := <[js "type" := JStr (js "tool_call")]> ∅ in
  let w := set_messageHandlers [0] new_OpenCodeBackend in
  delivered (processOpenCodeData uuid_counter (JObj o) w).2
    = [(0, ToolCall (JStr (js "unknown")) (JObj ∅) (JStr (js "id-0")))]
  ∧ defaults_applied (ToolCall (JStr (js "unknown")) (JObj ∅) (JStr (js "id-0"))).
Proof.
  intros o w.
  assert (Hd : delivered (processOpenCodeData uuid_counter (JObj o) w).2
               = [(0, ToolCall (JStr (js "unknown")) (JObj ∅) (JStr (js "id-0")))])
    by (vm_compute; reflexivity).
  split; [exact Hd|].
  destruct (normalized_fields_are_defaulted uuid_counter o w 0
              (ToolCall (JStr (js "unknown")) (JObj ∅) (JStr (js "id-0")))
              uuid_counter_nonempty) as [Hold|Hnew].
  - rewrite Hd. apply list_elem_of_In. simpl. tauto.
  - simpl in Hold. by apply elem_of_nil in Hold.
  - exact Hnew.
Defined.

Lemma unrecognized_no_case v family :
  unrecognized v → family ∈ families → case_of v family = false.
Proof.
  intros Hu HF. apply not_true_is_false. intros H.
  unfold case_of in H. apply existsb_exists in H as (l & Hl & Hs).
  destruct v as [| | | |t| |]; try done. simpl in Hs.
  apply bool_decide_eq_true in Hs as ->.
  apply (Hu l family eq_refl HF). by apply list_elem_of_In.
Qed.

(** X3: the arm for everything else. A record whose [type] is missing, is not a
    string, or is a string that no [case] label matches is forwarded as
    [model-output] when it has a truthy [text] (which then wins) or, failing
    that, a truthy [content]; otherwise it is dropped and nothing changes. The
    order is the reverse of the one in the text family, where [content] wins
    over [text]. *)
Theorem unrecognized_type_falls_back_to_text (uuid : nat → jstring)
    (o : gmap jstring JsValue) (w : World) :
  unrecognized (field o "type") →
  processOpenCodeData uuid (JObj o) w =
  if truthy (field o "text") then emit (ModelOutput (field o "text")) w
  else if truthy (field o "content") then emit (ModelOutput (field o "content")) w
  else (Normal tt, w).
Proof.
  intros Hu. rewrite process_obj.
  rewrite !(unrecognized_no_case _ _ Hu)
    by (unfold families; apply list_elem_of_In; simpl; tauto).
  rewrite truthy_js_or. unfold js_or.
  destruct (truthy (field o "text")); [done|].
  by destruct (truthy (field o "content")).
Qed.

Lemma unrecognized_type_falls_back_to_text_witness :
  let o : gmap jstring JsValue :=
    <[js "type" := JStr (js "file-edit")]>
      (<[js "text" := JStr (js "t")]> (<[js "content" := JStr (js "c")]> ∅)) in
  let w := set_messageHandlers [0] new_OpenCodeBackend in
  delivered (processOpenCodeData uuid_counter (JObj o) w).2
    = [(0, ModelOutput (JStr (js "t")))].
Proof.
  intros o w. rewrite (unrecognized_type_falls_back_to_text uuid_counter o w).
  - vm_compute. reflexivity.
  - intros t family Ht HF. vm_compute in Ht. injection Ht as <-.
    unfold families in HF.
    repeat (apply elem_of_cons in HF as [->|HF]); [..|by apply elem_of_nil in HF].
    all: intros H; apply list_elem_of_In in H; vm_compute in H; intuition discriminate.
Defined.

(** ** Further properties of the send cycle *)

Lemma stream_handler_after (chunk : jstring) w :
  ∃ msgs, length msgs ≤ 1
    ∧ (if truthy (JStr (trim chunk)) then emit (ModelOutput (JStr chunk)) else mret tt) w
      = (Normal tt, after_emitting msgs 0 w).
Proof.
  destruct (truthy (JStr (trim chunk))).
  - exists [ModelOutput (JStr chunk)]. split; [done | apply emit_after].
  - exists []. split; [simpl; lia | by rewrite after_emitting_nothing].
Qed.

Lemma handleStreamChunk_shape JSON_parse uuid chunk w :
  ∃ msgs n, length msgs ≤ 1
    ∧ handleStreamChunk JSON_parse uuid chunk w = (Normal tt, after_emitting msgs n w).
Proof.
  unfold handleStreamChunk, try_catch.
  destruct (JSON_parse chunk) as [data|].
  - destruct (process_shape uuid data w) as (c & om & -> & Hc).
    destruct Hc as [->|(-> & -> & -> & _)].
    + eexists _, _. split; [|reflexivity]. destruct om; simpl; lia.
    + change (option_list None) with (@nil AgentMessage). cbv beta iota.
      rewrite after_emitting_nothing.
      destruct (stream_handler_after chunk w) as (msgs & Hlen & ->). by exists msgs, 0.
  - unfold throw. destruct (stream_handler_after chunk w) as (msgs & Hlen & ->).
    by exists msgs, 0.
Qed.

Lemma stream_lines_shape JSON_parse uuid lines w :
  ∃ msgs n, length msgs ≤ length lines
    ∧ for_of lines (handleStreamChunk JSON_parse uuid) w
      = (Normal tt, after_emitting msgs n w).
Proof.
  revert w. induction lines as [|line lines IH]; intros w.
  - exists [], 0. split; [done|]. simpl. by rewrite after_emitting_nothing.
  - cbn [for_of]. unfold mbind, M_bind.
    destruct (handleStreamChunk_shape JSON_parse uuid line w) as (ms1 & n1 & H1 & ->).
    destruct (IH (after_emitting ms1 n1 w)) as (ms2 & n2 & H2 & ->).
    exists (ms1 ++ ms2), (n1 + n2). split.
    + rewrite length_app. simpl. lia.
    + by rewrite after_emitting_twice.
Qed.

(** X4: the callback of the stream never throws, whatever the line and
    whatever [JSON.parse] makes of it. A line that is JSON but not an object
    or [null] (a number, a string, a boolean, an array) is swallowed without
    any effect; the line [null] is treated like a line that is not JSON: the
    [TypeError] of reading [null.type] is caught and the line is passed on as
    text when it is not blank. *)
Theorem stream_callback_never_throws (JSON_parse : jstring → option JsValue)
    (uuid : nat → jstring) (chunk : jstring) (w : World) :
  let r := handleStreamChunk JSON_parse uuid chunk w in
  r.1 = Normal tt
  ∧ (∀ data, JSON_parse chunk = Some data →
       (∃ b, data = JBool b) ∨ (∃ x, data = JNum x) ∨ (∃ s, data = JStr s)
       ∨ (∃ l, data = JArr l) →
       r.2 = w)
  ∧ (JSON_parse chunk = Some JNull →
       r = if decide (blank chunk) then (Normal tt, w)
           else emit (ModelOutput (JStr chunk)) w).
Proof.
  intros r. subst r. split; [|split].
  - by destruct (handleStreamChunk_shape JSON_parse uuid chunk w) as (? & ? & _ & ->).
  - intros data Hp Hd. unfold handleStreamChunk, try_catch. rewrite Hp.
    by destruct Hd as [[? ->]|[[? ->]|[[? ->]|[? ->]]]].
  - intros Hp. unfold handleStreamChunk, try_catch. rewrite Hp.
    change (processOpenCodeData uuid JNull w) with (@Throw unit TypeError, w).
    cbv beta iota. rewrite truthy_trim.
    destruct (decide (blank chunk)) as [Hb|Hnb].
    + by rewrite bool_decide_eq_true_2.
    + by rewrite bool_decide_eq_false_2.
Qed.

Lemma stream_callback_never_throws_witness :
  let w := set_messageHandlers [0] new_OpenCodeBackend in
  handleStreamChunk JsonFragment.parse uuid_counter (js "null") w
    = (Normal tt, set_delivered [(0, ModelOutput (JStr (js "null")))] w)
  ∧ (handleStreamChunk JsonFragment.parse uuid_counter (js "42") w).2 = w.
Proof.
  intros w.
  destruct (stream_callback_never_throws JsonFragment.parse uuid_counter (js "null") w)
    as (_ & _ & Hnull).
  destruct (stream_callback_never_throws JsonFragment.parse uuid_counter (js "42") w)
    as (_ & Hprim & _).
  split.
  - rewrite Hnull by (vm_compute; reflexivity). vm_compute. reflexivity.
  - eapply Hprim; [vm_compute; reflexivity|]. right. left. by eexists.
Defined.

Lemma emitted_cons m ms hs : emitted (m :: ms) hs = deliveries m hs ++ emitted ms hs.
Proof. reflexivity. Qed.

Lemma emitted_snoc ms m hs : emitted (ms ++ [m]) hs = emitted ms hs ++ deliveries m hs.
Proof. unfold emitted. rewrite flat_map_app. simpl. by rewrite app_nil_r. Qed.

(** The lines that [sendMessage] hands to its callback, for a stream read to
    its end. *)
Lemma sendMessage_streamed sid parts (f : jstring → M unit) reads w :
  ∃ lines,
    sendMessage sid parts (Some f) (streamed reads) w =
    (fetch (PostMessage sid parts);; for_of lines f) w.
Proof.
  destruct (split_LF_snoc (concat reads)) as (init & last & Hs & _).
  eexists. by apply sendMessage_lines.
Qed.

(** X5: a send that succeeds. When the server answers with a success status and
    a body that is read to its end, [sendPrompt] returns normally whatever the
    lines are; the listeners receive [status(running)] first and
    [status(idle)] last, with the messages of the lines in between; exactly
    one request is sent; the response promise is the new one and is
    resolved, so that [waitForResponseComplete] is fulfilled at once. *)
Theorem successful_send_is_bracketed (JSON_parse : jstring → option JsValue)
    (uuid : nat → jstring) (sessionId prompt : jstring) (reads : list jstring)
    (w : World) :
  let r := sendPrompt JSON_parse uuid sessionId prompt (streamed reads) w in
  r.1 = Normal tt
  ∧ (∃ msgs, delivered r.2 =
       delivered w
       ++ emitted (Status running None :: msgs ++ [Status idle None]) (messageHandlers w))
  ∧ messageHandlers r.2 = messageHandlers w
  ∧ requests r.2 = requests w ++ [PostMessage sessionId [TextPart prompt]]
  ∧ responseComplete r.2 = Some (next_promise w)
  ∧ next_promise w ∈ resolved r.2
  ∧ responseResolve r.2 = None
  ∧ ∀ timeoutMs resolves_in,
      (waitForResponseComplete timeoutMs resolves_in r.2).1
      = Normal (Some (0%N, Fulfilled)).
Proof.
  intros r.
  assert (Hr : ∃ msgs n, r =
    (Normal tt,
     set_responseResolve None
       (set_resolved ({[next_promise w]} ∪ resolved w)
          (set_delivered
             (delivered w
              ++ emitted (Status running None :: msgs ++ [Status idle None])
                   (messageHandlers w))
             (after_emitting [] n
                (set_requests (requests w ++ [PostMessage sessionId [TextPart prompt]])
                   (set_responseComplete (Some (next_promise w))
                      (set_next_promise (S (next_promise w)) w)))))))).
  { subst r. unfold sendPrompt.
    unfold mbind at 1, M_bind at 1. rewrite sendPrompt_before_await_run.
    unfold mbind at 1, M_bind at 1.
    destruct (sendMessage_streamed sessionId [TextPart prompt]
                (handleStreamChunk JSON_parse uuid) reads
                (set_delivered
                   (delivered w ++ deliveries (Status running None) (messageHandlers w))
                   (set_responseComplete (Some (next_promise w))
                      (set_responseResolve (Some (next_promise w))
                         (set_next_promise (S (next_promise w)) w)))))
      as (lines & ->).
    unfold mbind at 1, M_bind at 1, fetch, modify.
    match goal with
    | |- context [for_of lines _ ?w1] =>
        destruct (stream_lines_shape JSON_parse uuid lines w1) as (msgs & n & _ & ->)
    end.
    rewrite sendPrompt_after_await_run. exists msgs, n.
    unfold after_emitting. simpl.
    rewrite emitted_snoc, !app_assoc, app_nil_r. reflexivity. }
  destruct Hr as (msgs & n & ->). simpl.
  split; [done|]. split; [by exists msgs|]. do 3 (split; [done|]).
  split; [set_solver|]. split; [done|].
  intros timeoutMs resolves_in. apply (wait_settled _ _ _ (next_promise w)); [done|].
  simpl. set_solver.
Qed.

Lemma wait_times_out timeoutMs resolves_in w p :
  responseComplete w = Some p → p ∉ resolved w → resolves_in p = None →
  (waitForResponseComplete timeoutMs resolves_in w).1
  = Normal (Some (default 120000%N timeoutMs, Rejected (Error (js "Response timeout")))).
Proof.
  intros Hp Hn Hr. rewrite wait_run, Hp, Hr. by rewrite bool_decide_eq_false_2.
Qed.

(** What [sendMessage] does with an answer that makes it fail, the callback
    being the one of the backend. *)
Lemma sendMessage_fails JSON_parse uuid sid parts answer w :
  send_fails answer →
  ∃ e msgs n,
    sendMessage sid parts (Some (handleStreamChunk JSON_parse uuid)) answer w
    = (Throw e, after_emitting msgs n (set_requests (requests w ++ [PostMessage sid parts]) w))
    ∧ ((answer = NetworkFailure
        ∨ ∃ r, answer = Responded r ∧ (ok r = false ∨ content r = None)) → msgs = []).
Proof.
  intros Hf. unfold sendMessage, fetch, modify. unfold mbind at 1, M_bind at 1.
  set (w1 := set_requests _ w).
  destruct answer as [|r].
  { exists TypeError, [], 0. rewrite after_emitting_nothing. done. }
  destruct (ok r) eqn:Hok; simpl.
  2:{ eexists _, [], 0. rewrite after_emitting_nothing. done. }
  destruct (content r) as [body|] eqn:Hc.
  2:{ eexists _, [], 0. rewrite after_emitting_nothing. done. }
  destruct Hf as [Hf|[Hf|(body' & Hb & Hend)]]; [congruence..|].
  assert (body' = body) as -> by congruence.
  rewrite Hend.
  destruct (split_LF_snoc (concat (values body))) as (init & last & Hs & _).
  unfold mbind, M_bind.
  rewrite (read_loop_spec _ (values body) (js "") init last w1) by done.
  unfold mbind, M_bind.
  destruct (stream_lines_shape JSON_parse uuid (filter (λ l, ¬ blank l) init) w1)
    as (msgs & n & _ & ->).
  exists TypeError, msgs, n. split; [done|].
  intros [?|(r' & [= <-] & [?|?])]; congruence.
Qed.

(** X6: a send that fails. When [sendMessage] fails (no answer, a non-success
    status, no body, or a read that fails), [sendPrompt] throws after
    [status(running)] was emitted and without emitting the closing
    [status(idle)]; when the failure comes before the stream, [running] is all
    the listeners get. The response promise stays pending, so a
    [waitForResponseComplete] that nothing else resolves is rejected at its
    deadline. *)
Theorem failed_send_leaves_response_pending (JSON_parse : jstring → option JsValue)
    (uuid : nat → jstring) (sessionId prompt : jstring)
    (answer : Fetched (option Body)) (w : World) :
  (∀ p, p ∈ resolved w → p < next_promise w) →
  send_fails answer →
  let r := sendPrompt JSON_parse uuid sessionId prompt answer w in
  (∃ e, r.1 = Throw e)
  ∧ (∃ msgs,
       delivered r.2
       = delivered w ++ emitted (Status running None :: msgs) (messageHandlers w)
       ∧ ((answer = NetworkFailure
           ∨ ∃ resp, answer = Responded resp ∧ (ok resp = false ∨ content resp = None)) →
          msgs = []))
  ∧ responseComplete r.2 = Some (next_promise w)
  ∧ (next_promise w ∉ resolved r.2)
  ∧ ∀ timeoutMs resolves_in,
      resolves_in (next_promise w) = None →
      (waitForResponseComplete timeoutMs resolves_in r.2).1
      = Normal (Some (default 120000%N timeoutMs,
                      Rejected (Error (js "Response timeout")))).
Proof.
  intros Hfresh Hf r.
  assert (Hr : ∃ e msgs n, r =
    (Throw e,
     after_emitting msgs n
       (set_requests (requests w ++ [PostMessage sessionId [TextPart prompt]])
          (set_delivered
             (delivered w ++ deliveries (Status running None) (messageHandlers w))
             (set_responseComplete (Some (next_promise w))
                (set_responseResolve (Some (next_promise w))
                   (set_next_promise (S (next_promise w)) w))))))
    ∧ ((answer = NetworkFailure
        ∨ ∃ resp, answer = Responded resp ∧ (ok resp = false ∨ content resp = None)) →
       msgs = [])).
  { subst r. unfold sendPrompt.
    unfold mbind at 1, M_bind at 1. rewrite sendPrompt_before_await_run.
    unfold mbind at 1, M_bind at 1.
    match goal with
    | |- context [sendMessage _ _ _ _ ?w1] =>
        destruct (sendMessage_fails JSON_parse uuid sessionId [TextPart prompt] answer
                    w1 Hf) as (e & msgs & n & -> & Hmsgs)
    end.
    by exists e, msgs, n. }
  destruct Hr as (e & msgs & n & -> & Hmsgs). simpl.
  assert (Hn : next_promise w ∉ resolved w) by (intros H%Hfresh; lia).
  split; [by exists e|]. split; [|split; [done|split; [done|]]].
  - exists msgs. split; [|done]. by rewrite <- app_assoc.
  - intros timeoutMs resolves_in Hres. by apply (wait_times_out _ _ _ (next_promise w)).
Qed.

Lemma failed_send_leaves_response_pending_witness :
  let r := sendPrompt JsonFragment.parse uuid_counter (js "s1") (js "hello")
             (Responded (mkResponse false 500 None)) listening_session in
  r.1 = Throw (Error (js "Failed to send message: 500"))
  ∧ delivered r.2 = [(0, Status running None); (0, Status running None)]
  ∧ (waitForResponseComplete (Some 50%N) (λ _, None) r.2).1
    = Normal (Some (50%N, Rejected (Error (js "Response timeout")))).
Proof.
  intros r.
  destruct (failed_send_leaves_response_pending JsonFragment.parse uuid_counter (js "s1")
              (js "hello") (Responded (mkResponse false 500 None)) listening_session)
    as (_ & _ & _ & _ & Hwait).
  - intros p Hp. exfalso. revert Hp. change (resolved listening_session) with (∅ : gset nat).
    apply not_elem_of_empty.
  - simpl. by left.
  - split; [vm_compute; reflexivity|]. split; [vm_compute; reflexivity|].
    apply (Hwait (Some 50%N)). reflexivity.
Defined.

(** ** Further properties of the transport client and of the lifecycle *)

(** X7: [cancel] and the abort request. When the server answers the abort
    with a success status or with 404, [cancel] returns normally and every
    listener receives [status(idle)]; with any other status it throws
    [Failed to abort session: <status>], and when the request itself fails it
    throws too: in both cases no listener is called. The abort request is
    sent in every case. *)
Theorem cancel_treats_404_as_success (sessionId : jstring) (answer : Fetched unit)
    (w : World) :
  let sent := set_requests (requests w ++ [PostAbort sessionId]) w in
  (∀ resp, answer = Responded resp → ok resp = true ∨ status resp = 404%N →
     cancel sessionId answer w =
     (Normal tt,
      set_delivered
        (delivered w ++ deliveries (Status idle None) (messageHandlers w)) sent))
  ∧ (∀ resp, answer = Responded resp → ok resp = false → status resp ≠ 404%N →
       cancel sessionId answer w =
       (Throw (Error (js "Failed to abort session: " ++ js_of_N (status resp))), sent))
  ∧ (answer = NetworkFailure → cancel sessionId answer w = (Throw TypeError, sent)).
Proof.
  intros sent. unfold cancel, abortSession, fetch, modify, mbind, M_bind.
  split; [|split].
  - intros resp -> H.
    assert (negb (ok resp) && negb (status resp =? 404)%N = false) as ->.
    { destruct H as [H|H]; rewrite H; [done|]. by rewrite andb_false_r. }
    simpl. by rewrite emit_run.
  - intros resp -> Hok Hst. rewrite Hok. simpl.
    by destruct (N.eqb_spec (status resp) 404).
  - by intros ->.
Qed.

Lemma cancel_treats_404_as_success_witness :
  cancel (js "s1") (Responded (mkResponse false 404 tt)) listening_session
  = (Normal tt,
     set_delivered [(0, Status running None); (0, Status idle None)]
       (set_requests [PostSession; PostAbort (js "s1")] listening_session))
  ∧ (cancel (js "s1") (Responded (mkResponse false 500 tt)) listening_session).1
    = Throw (Error (js "Failed to abort session: 500")).
Proof.
  destruct (cancel_treats_404_as_success (js "s1") (Responded (mkResponse false 404 tt))
              listening_session) as (H404 & _ & _).
  destruct (cancel_treats_404_as_success (js "s1") (Responded (mkResponse false 500 tt))
              listening_session) as (_ & H500 & _).
  split.
  - rewrite (H404 _ eq_refl) by (by right). reflexivity.
  - rewrite (H500 _ eq_refl) by done. reflexivity.
Defined.

(** An answer to [createSession] with which the call fails. *)
Lemma createSession_fails answer w :
  (answer = NetworkFailure
   ∨ ∃ resp, answer = Responded resp ∧ (ok resp = false ∨ content resp = None)) →
  ∃ e, createSession answer w = (Throw e, set_requests (requests w ++ [PostSession]) w).
Proof.
  unfold createSession, fetch, modify, mbind, M_bind.
  intros [->|(resp & -> & H)]; [by eexists|].
  destruct (ok resp) eqn:Hok; simpl; [|by eexists].
  destruct H as [H|H]; [congruence|]. rewrite H. by eexists.
Qed.

Lemma startSession_failure_shape JSON_parse uuid E initialPrompt created answer w :
  (created = NetworkFailure
   ∨ ∃ resp, created = Responded resp ∧ (ok resp = false ∨ content resp = None)) →
  ∃ e, startSession JSON_parse uuid E initialPrompt created answer w
       = (Throw e, set_requests (requests w ++ [PostSession]) w).
Proof.
  intros H. destruct (createSession_fails created w H) as [e He].
  exists e. unfold startSession. unfold mbind at 1, M_bind at 1. by rewrite He.
Qed.

(** X8: a session that cannot be created. When [createSession] fails (no
    answer, a non-success status, or a body that is not JSON), [startSession]
    throws and, apart from the request that was sent, the adapter is as it
    was: no session handle is stored, no push subscription is opened, no
    listener is called and no prompt is sent, with or without an initial
    prompt. *)
Theorem startSession_failure_changes_nothing (JSON_parse : jstring → option JsValue)
    (uuid : nat → jstring) (E : bool) (initialPrompt : option jstring)
    (created : Fetched (option OpenCodeSessionCreateResponse))
    (answer : Fetched (option Body)) (w : World) :
  (created = NetworkFailure
   ∨ ∃ resp, created = Responded resp ∧ (ok resp = false ∨ content resp = None)) →
  ∃ e, startSession JSON_parse uuid E initialPrompt created answer w
       = (Throw e, set_requests (requests w ++ [PostSession]) w).
Proof.
  apply startSession_failure_shape.
Qed.

Lemma startSession_failure_changes_nothing_witness :
  startSession JsonFragment.parse uuid_counter true (Some (js "hello"))
    (Responded (mkResponse false 401 None)) (streamed []) new_OpenCodeBackend
  = (Throw (Error (js "Failed to create session: 401")),
     set_requests [PostSession] new_OpenCodeBackend).
Proof.
  destruct (startSession_failure_changes_nothing JsonFragment.parse uuid_counter true
              (Some (js "hello")) (Responded (mkResponse false 401 None)) (streamed [])
              new_OpenCodeBackend) as [e He].
  - right. eexists. split; [reflexivity|]. by left.
  - rewrite He. f_equal. vm_compute in He. by injection He as <-.
Defined.

(** X9: the initial prompt. [startSession(prompt)] with a non-empty prompt is
    [startSession()] followed by [sendPrompt(id, prompt)] on the created
    session, and its result is the created handle when the send succeeds; an
    empty prompt is no prompt: nothing is sent. *)
Theorem startSession_with_prompt_is_start_then_send
    (JSON_parse : jstring → option JsValue) (uuid : nat → jstring) (E : bool)
    (prompt : jstring) (created : Fetched (option OpenCodeSessionCreateResponse))
    (answer unused : Fetched (option Body)) (w : World) :
  (prompt ≠ [] →
     startSession JSON_parse uuid E (Some prompt) created answer w =
     (sid ← startSession JSON_parse uuid E None created unused;
      sendPrompt JSON_parse uuid sid prompt answer;;
      mret sid) w)
  ∧ startSession JSON_parse uuid E (Some []) created answer w
    = startSession JSON_parse uuid E None created unused w.
Proof.
  split.
  - intros Hne. unfold startSession, mbind, M_bind, mret, M_ret.
    assert (truthy (JStr prompt) = true) as ->
      by (simpl; by rewrite bool_decide_eq_false_2).
    destruct (createSession created w) as [[session|e] w1]; [|done].
    destruct (modify _ w1) as [[[]|e] w2]; [|done].
    destruct (connectToEvents E w2) as [[u|e] w3]; [|done].
    destruct (modify _ w3) as [[[]|e] w4]; [|done].
    destruct (emit _ w4) as [[[]|e] w5]; done.
  - reflexivity.
Qed.

Lemma startSession_with_prompt_is_start_then_send_witness :
  delivered
    (startSession JsonFragment.parse uuid_counter true (Some (js "hello"))
       (created (js "s1")) (streamed [line_done])
       (onMessage 0 new_OpenCodeBackend).2).2
  = [(0, Status running None); (0, Status running None);
     (0, Status idle None); (0, Status idle None)].
Proof.
  destruct (startSession_with_prompt_is_start_then_send JsonFragment.parse uuid_counter
              true (js "hello") (created (js "s1")) (streamed [line_done]) NetworkFailure
              (onMessage 0 new_OpenCodeBackend).2) as [H _].
  rewrite H by discriminate. vm_compute. reflexivity.
Defined.

(** [sendMessage] on a success answer with a body, whatever the end of the
    stream. *)
Lemma sendMessage_body sid parts (f : jstring → M unit) st reads ending init last w :
  split_LF (concat reads) = init ++ [last] →
  sendMessage sid parts (Some f)
    (Responded (mkResponse true st (Some (mkBody reads ending)))) w =
  (fetch (PostMessage sid parts);;
   for_of (filter (λ l, ¬ blank l) init) f;;
   match ending with
   | ReadError => throw TypeError
   | Done => if decide (blank last) then mret tt else f last
   end) w.
Proof.
  intros Hsplit. unfold sendMessage. cbn [ok content negb values stream_end].
  unfold mbind at 1 4, M_bind at 1 4, fetch, modify.
  set (w1 := set_requests _ w).
  unfold mbind at 1, M_bind at 1.
  rewrite (read_loop_spec f reads (js "") init last w1) by done.
  unfold mbind, M_bind, mret, M_ret. subst w1.
  destruct (for_of (filter (λ l, ¬ blank l) init) f _) as [[[]|e] w2]; [|done].
  destruct ending; [|done].
  rewrite truthy_trim. destruct (decide (blank last)) as [Hb|Hnb].
  - by rewrite bool_decide_eq_true_2.
  - by rewrite bool_decide_eq_false_2.
Qed.

(** X10: chunk boundaries do not matter. Two streams with the same text, cut
    into chunks in any two ways and ending the same way, make [sendMessage]
    behave the same: the same calls of [onLine] in the same order and the
    same result. *)
Theorem chunking_does_not_matter (sessionId : jstring)
    (parts : list OpenCodeMessagePart) (onLine : jstring → M unit) (st : N)
    (reads1 reads2 : list jstring) (ending : StreamEnd) (w : World) :
  concat reads1 = concat reads2 →
  sendMessage sessionId parts (Some onLine)
    (Responded (mkResponse true st (Some (mkBody reads1 ending)))) w
  = sendMessage sessionId parts (Some onLine)
      (Responded (mkResponse true st (Some (mkBody reads2 ending)))) w.
Proof.
  intros Heq.
  destruct (split_LF_snoc (concat reads1)) as (init & last & Hs & _).
  rewrite (sendMessage_body _ _ _ _ reads1 _ init last) by done.
  rewrite (sendMessage_body _ _ _ _ reads2 _ init last) by by rewrite <- Heq.
  reflexivity.
Qed.

Lemma chunking_does_not_matter_witness :
  sendMessage (js "s1") [] (Some record_line)
    (streamed [js "a"; [98; LF; 99]%N; js "d"]) new_OpenCodeBackend
  = sendMessage (js "s1") [] (Some record_line)
      (streamed [[97; 98; LF; 99; 100]%N]) new_OpenCodeBackend.
Proof.
  apply (chunking_does_not_matter (js "s1") [] record_line 200
           [js "a"; [98; LF; 99]%N; js "d"] [[97; 98; LF; 99; 100]%N] Done).
  vm_compute. reflexivity.
Defined.

(** X11: a read that fails. When reading the body fails after the text
    [lines] and [trailing] has arrived, [onLine] has been called for every
    complete line that is not blank, the trailing partial line is lost (it is
    never handed to [onLine]), and [sendMessage] throws. *)
Theorem read_error_loses_the_partial_line (sessionId : jstring)
    (parts : list OpenCodeMessagePart) (onLine : jstring → M unit) (st : N)
    (reads lines : list jstring) (trailing : jstring) (w : World) :
  Forall (λ l, LF ∉ l) lines → LF ∉ trailing →
  concat reads = join_lines lines trailing →
  sendMessage sessionId parts (Some onLine)
    (Responded (mkResponse true st (Some (mkBody reads ReadError)))) w =
  (fetch (PostMessage sessionId parts);;
   for_of (filter (λ l, ¬ blank l) lines) onLine;;
   throw TypeError) w.
Proof.
  intros Hl Ht Hc.
  apply (sendMessage_body _ _ _ _ _ ReadError lines trailing).
  rewrite Hc. by apply split_LF_join.
Qed.

Lemma read_error_loses_the_partial_line_witness :
  let r := sendMessage (js "s1") [] (Some record_line)
             (Responded (mkResponse true 200
                (Some (mkBody [[97; LF; 98]%N] ReadError)))) new_OpenCodeBackend in
  r.1 = Throw TypeError ∧ delivered r.2 = [(0, ModelOutput (JStr (js "a")))].
Proof.
  intros r. subst r.
  rewrite (read_error_loses_the_partial_line (js "s1") [] record_line 200
             [[97; LF; 98]%N] [js "a"] (js "b")).
  - split; vm_compute; reflexivity.
  - repeat constructor. vm_compute. intros H. apply list_elem_of_In in H.
    simpl in H. intuition discriminate.
  - vm_compute. intros H. apply list_elem_of_In in H. simpl in H. intuition discriminate.
  - vm_compute. reflexivity.
Defined.

(** ** Invariants of the runs *)

Lemma reachable_run_events JSON_parse uuid E events w :
  reachable JSON_parse uuid E w → reachable JSON_parse uuid E (run_events JSON_parse uuid E events w).
Proof.
  revert w. induction events as [|e events IH]; intros w Hw; [done|].
  simpl. apply IH. by constructor.
Qed.

Lemma run_events_app JSON_parse uuid E es1 es2 w :
  run_events JSON_parse uuid E (es1 ++ es2) w
  = run_events JSON_parse uuid E es2 (run_events JSON_parse uuid E es1 w).
Proof. unfold run_events. apply foldl_app. Qed.

Lemma emit_registry_state m : preserves registry_state (emit m).
Proof. unfold emit, call_handler. preserves. Qed.

Lemma process_registry_state uuid data :
  preserves registry_state (processOpenCodeData uuid data).
Proof.
  unfold processOpenCodeData, prop, or_randomUUID.
  preserves; try apply emit_registry_state; by intros w.
Qed.

Lemma handleStreamChunk_registry_state JSON_parse uuid chunk :
  preserves registry_state (handleStreamChunk JSON_parse uuid chunk).
Proof.
  unfold handleStreamChunk. preserves;
    first [apply process_registry_state | apply emit_registry_state].
Qed.

Lemma run_event_registry_state JSON_parse uuid E e :
  match e with
  | CallOnMessage _ | CallOffMessage _ | CallStartSession _ | CallDispose => False
  | _ => True
  end →
  preserves registry_state (run_event JSON_parse uuid E e).
Proof.
  intros He. destruct e; try done; simpl.
  all: unfold sendPrompt_before_await, sendPrompt_after_await, cancel, abortSession, fetch,
         respondToPermission, onmessage, handleOpenCodeEvent, prop.
  all: preserves;
         first [apply process_registry_state | apply emit_registry_state
               | apply handleStreamChunk_registry_state].
Qed.

Lemma registry_consistent_state E w w' :
  registry_state w' = registry_state w → registry_consistent E w → registry_consistent E w'.
Proof.
  unfold registry_state, registry_consistent. intros [= -> -> -> -> ->]. done.
Qed.

Lemma Set_add_NoDup x s : NoDup s → NoDup (Set_add x s).
Proof.
  intros H. unfold Set_add. case_bool_decide; [done|].
  apply list.NoDup_app. split; [done|]. split; [|apply list.NoDup_singleton].
  intros y Hy ->%list_elem_of_singleton. done.
Qed.

Lemma Set_delete_NoDup x s : NoDup s → NoDup (Set_delete x s).
Proof. intros H. unfold Set_delete. by apply list.NoDup_filter. Qed.

Lemma createSession_ok resp session w :
  ok resp = true → content resp = Some session →
  createSession (Responded resp) w
  = (Normal session, set_requests (requests w ++ [PostSession]) w).
Proof.
  intros Hok Hc. unfold createSession, fetch, modify, mbind, M_bind.
  by rewrite Hok, Hc.
Qed.

Lemma connectToEvents_run E w :
  connectToEvents E w =
  (Normal (next_subscriber w),
   set_eventSource (eventSource w || E)
     (set_eventHandlers (Set_add (next_subscriber w) (eventHandlers w))
        (set_next_subscriber (S (next_subscriber w)) w))).
Proof.
  unfold connectToEvents, modify, get, when, mbind, M_bind, mret, M_ret.
  cbn [eventSource set_eventHandlers set_next_subscriber].
  destruct (eventSource w) eqn:Hes, E; cbn [negb andb orb]; try reflexivity.
  all: destruct w; simpl in *; by subst.
Qed.

(** [startSession()] when the session is created. *)
Lemma startSession_created JSON_parse uuid E resp session unused w :
  ok resp = true → content resp = Some session →
  startSession JSON_parse uuid E None (Responded resp) unused w =
  (Normal (session_id session),
   let w1 := set_requests (requests w ++ [PostSession]) w in
   set_delivered (delivered w ++ deliveries (Status running None) (messageHandlers w))
     (set_eventUnsubscribe (Some (next_subscriber w))
        (set_eventSource (eventSource w || E)
           (set_eventHandlers (Set_add (next_subscriber w) (eventHandlers w))
              (set_next_subscriber (S (next_subscriber w))
                 (set_currentSessionId (Some (session_id session)) w1)))))).
Proof.
  intros Hok Hc. unfold startSession.
  unfold mbind at 1, M_bind at 1. rewrite (createSession_ok _ _ _ Hok Hc).
  unfold mbind at 1, M_bind at 1, modify at 1.
  unfold mbind at 1, M_bind at 1. rewrite connectToEvents_run.
  unfold mbind at 1, M_bind at 1, modify at 1.
  unfold mbind at 1, M_bind at 1. rewrite emit_run.
  reflexivity.
Qed.

Lemma startSession_result JSON_parse uuid E created unused w :
  (∃ e, startSession JSON_parse uuid E None created unused w
        = (Throw e, set_requests (requests w ++ [PostSession]) w))
  ∨ (∃ resp session, created = Responded resp ∧ ok resp = true
                     ∧ content resp = Some session).
Proof.
  destruct created as [|resp].
  - left. apply startSession_failure_shape. by left.
  - destruct (ok resp) eqn:Hok.
    + destruct (content resp) as [session|] eqn:Hc.
      * right. by exists resp, session.
      * left. apply startSession_failure_shape. right. exists resp. auto.
    + left. apply startSession_failure_shape. right. exists resp. auto.
Qed.

Lemma registry_consistent_step JSON_parse uuid E e w :
  registry_consistent E w → registry_consistent E (run_event JSON_parse uuid E e w).2.
Proof.
  intros (Hmh & Heh & Hlt & Hun & Hes).
  assert (Hframe : match e with
                   | CallOnMessage _ | CallOffMessage _ | CallStartSession _
                   | CallDispose => False
                   | _ => True
                   end →
                   registry_consistent E (run_event JSON_parse uuid E e w).2).
  { intros He. eapply registry_consistent_state; [|done].
    by apply run_event_registry_state. }
  destruct e as [h|h|created| | | | | | |]; try (by apply Hframe).
  - repeat split; try done. by apply Set_add_NoDup.
  - repeat split; try done. by apply Set_delete_NoDup.
  - simpl. unfold mbind at 1, M_bind at 1.
    destruct (startSession_result JSON_parse uuid E created NetworkFailure w)
      as [[e ->]|(resp & session & -> & Hok & Hc)]; [done|].
    rewrite (startSession_created _ _ _ _ _ _ _ Hok Hc). simpl.
    assert (Hfresh : next_subscriber w ∉ eventHandlers w) by (intros H%Hlt; lia).
    unfold Set_add. rewrite bool_decide_eq_false_2 by done.
    repeat split; simpl; try done.
    + apply list.NoDup_app. split; [done|]. split; [|apply list.NoDup_singleton].
      intros y Hy ->%list_elem_of_singleton. done.
    + intros s [Hs| ->%list_elem_of_singleton]%elem_of_app; [apply Hlt in Hs|]; lia.
    + intros u [= <-]. apply elem_of_app. right. by apply list_elem_of_singleton.
    + rewrite Hes. rewrite (bool_decide_eq_true_2 (_ ++ _ ≠ [])).
      * destruct E; simpl; [by rewrite orb_true_r | done].
      * by destruct (eventHandlers w).
  - simpl. rewrite dispose_run. simpl.
    repeat split; try done; try apply NoDup_nil_2.
    + intros s Hs. by apply elem_of_nil in Hs.
    + by rewrite andb_false_r.
Qed.

(** X12: the listeners and the push subscriptions stay consistent. In every
    state that a run reaches, no listener and no subscriber is registered
    twice, the subscription that [dispose] would cancel is among the
    subscribers of the client, and the client holds an open EventSource
    exactly when the platform provides [EventSource] and there is a
    subscriber. *)
Theorem registry_stays_consistent (JSON_parse : jstring → option JsValue)
    (uuid : nat → jstring) (E : bool) (w : World) :
  reachable JSON_parse uuid E w → registry_consistent E w.
Proof.
  induction 1 as [|w e _ IH].
  - repeat split; try apply NoDup_nil_2; try done.
    + intros s Hs. by apply elem_of_nil in Hs.
    + by rewrite andb_false_r.
  - by apply registry_consistent_step.
Qed.

Lemma registry_stays_consistent_witness :
  let w := run_events JsonFragment.parse uuid_counter true
             [CallOnMessage 0; CallStartSession (created (js "s1"));
              CallStartSession (created (js "s2")); CallOnMessage 0]
             new_OpenCodeBackend in
  messageHandlers w = [0] ∧ eventHandlers w = [0; 1] ∧ registry_consistent true w.
Proof.
  intros w. split; [vm_compute; reflexivity|]. split; [vm_compute; reflexivity|].
  apply (registry_stays_consistent JsonFragment.parse uuid_counter true).
  apply reachable_run_events. constructor.
Defined.

(** ** Listeners *)






(** ** Push events *)

Lemma handleOpenCodeEvent_shape uuid event w :
  ∃ c msgs n,
    handleOpenCodeEvent uuid event w = (c, after_emitting msgs n w)
    ∧ (c = Normal tt ∨ msgs = [] ∧ n = 0).
Proof.
  destruct event as [| |b|x|s|l|o].
  1,2: exists (Throw TypeError), [], 0; rewrite after_emitting_nothing; by auto.
  1-4: exists (Normal tt), [], 0; rewrite after_emitting_nothing; by auto.
  rewrite handle_event_obj. destruct (_ && _).
  - exists (Normal tt), [], 0. rewrite after_emitting_nothing. by auto.
  - destruct (process_shape uuid (JObj o) w) as (c & om & -> & Hc).
    eexists _, _, _. split; [reflexivity|].
    destruct Hc as [->|(_ & _ & _ & [?|?])]; [by left|done..].
Qed.

Lemma for_of_subscribers_shape uuid event (subscribers : list Subscriber) w :
  ∃ c msgs n,
    for_of subscribers (λ _, handleOpenCodeEvent uuid event) w
    = (c, after_emitting msgs n w).
Proof.
  revert w. induction subscribers as [|s subscribers IH]; intros w.
  - exists (Normal tt), [], 0. by rewrite after_emitting_nothing.
  - cbn [for_of]. unfold mbind, M_bind.
    destruct (handleOpenCodeEvent_shape uuid event w) as (c & ms1 & n1 & -> & _).
    destruct c as [[]|e].
    + destruct (IH (after_emitting ms1 n1 w)) as (c2 & ms2 & n2 & ->).
      exists c2, (ms1 ++ ms2), (n1 + n2). by rewrite after_emitting_twice.
    + by exists (Throw e), ms1, n1.
Qed.

Lemma onmessage_shape JSON_parse uuid data w :
  ∃ msgs n, onmessage JSON_parse uuid data w = (Normal tt, after_emitting msgs n w).
Proof.
  unfold onmessage, try_catch.
  destruct (JSON_parse data) as [event|].
  - unfold mbind, M_bind, get.
    destruct (for_of_subscribers_shape uuid event (eventHandlers w) w)
      as (c & msgs & n & ->).
    destruct c as [[]|e]; by exists msgs, n.
  - exists [], 0. by rewrite after_emitting_nothing.
Qed.

(** X14: the handler of push messages never throws. Whatever the payload,
    [onmessage] returns normally and changes nothing but the deliveries and
    the count of drawn identifiers; a payload that is not JSON, the payload
    [null], and any payload when nobody is subscribed leave the adapter as it
    was. *)
Theorem push_handler_never_throws (JSON_parse : jstring → option JsValue)
    (uuid : nat → jstring) (data : jstring) (w : World) :
  let r := onmessage JSON_parse uuid data w in
  r.1 = Normal tt
  ∧ (∃ msgs n, r.2 = after_emitting msgs n w)
  ∧ (JSON_parse data = None → r.2 = w)
  ∧ (JSON_parse data = Some JNull → r.2 = w)
  ∧ (eventHandlers w = [] → r.2 = w).
Proof.
  intros r. subst r.
  destruct (onmessage_shape JSON_parse uuid data w) as (msgs & n & Hr).
  split; [by rewrite Hr|]. split; [exists msgs, n; by rewrite Hr|].
  unfold onmessage, try_catch, mbind, M_bind, get. split; [|split].
  - by intros ->.
  - intros ->. by destruct (eventHandlers w).
  - intros Heh. destruct (JSON_parse data); [|done]. by rewrite Heh.
Qed.

Lemma push_handler_never_throws_witness :
  (onmessage JsonFragment.parse uuid_counter (js "{oops") listening_session).2
    = listening_session
  ∧ (onmessage JsonFragment.parse uuid_counter (js "null") listening_session).2
    = listening_session.
Proof.
  destruct (push_handler_never_throws JsonFragment.parse uuid_counter (js "{oops")
              listening_session) as (_ & _ & H1 & _).
  destruct (push_handler_never_throws JsonFragment.parse uuid_counter (js "null")
              listening_session) as (_ & _ & _ & H2 & _).
  split; [apply H1 | apply H2]; vm_compute; reflexivity.
Defined.

Lemma normalize_fresh_irrelevant f1 f2 o :
  draws_fresh_id (JObj o) = false → normalize f1 o = normalize f2 o.
Proof.
  unfold draws_fresh_id, normalize. intros [Ht Hp]%orb_false_elim.
  destruct (case_of (field o "type") text_family); [done|].
  destruct (case_of (field o "type") tool_call_family).
  { simpl in Ht. apply negb_false_iff in Ht.
    by rewrite !(js_or_unfold (field o "id" ||| field o "callId")), Ht. }
  destruct (case_of (field o "type") tool_result_family); [done|].
  destruct (case_of (field o "type") fs_edit_family); [done|].
  destruct (case_of (field o "type") terminal_family); [done|].
  destruct (case_of (field o "type") permission_family); [|done].
  simpl in Hp. apply negb_false_iff in Hp.
  by rewrite !(js_or_unfold (field o "id")), Hp.
Qed.

Lemma for_of_subscribers_accepted uuid o om (subscribers : list Subscriber) :
  (∀ w, processOpenCodeData uuid (JObj o) w = (Normal tt, after_emitting (option_list om) 0 w)) →
  ∀ w, passes_filter o w →
    for_of subscribers (λ _, handleOpenCodeEvent uuid (JObj o)) w
    = (Normal tt,
       after_emitting (concat (replicate (length subscribers) (option_list om))) 0 w).
Proof.
  intros Hp. induction subscribers as [|s subscribers IH]; intros w Hpass.
  - simpl. by rewrite after_emitting_nothing.
  - cbn [for_of]. unfold mbind, M_bind. rewrite handle_event_obj.
    assert (truthy (field o "sessionId")
            && strict_ne (field o "sessionId") (currentSessionId w) = false) as ->.
    { destruct Hpass as [->|(s' & -> & ->)]; [done|]. simpl.
      rewrite (bool_decide_eq_true_2 (s' = s')) by done. apply andb_false_r. }
    rewrite Hp. rewrite IH by exact Hpass.
    rewrite after_emitting_twice. reflexivity.
Qed.

(** X15: every subscription handles the event. Each [startSession] subscribes
    a new closure and only [dispose] removes subscriptions, so an adapter
    started [n] times holds [n] subscribers, and a push event that passes the
    session filter is normalized and emitted once per subscriber: every
    listener receives the message [n] times. (Stated for events that draw no
    fresh identifier.) *)
Theorem every_subscription_handles_the_event (JSON_parse : jstring → option JsValue)
    (uuid : nat → jstring) (data : jstring) (o : gmap jstring JsValue) (w : World) :
  JSON_parse data = Some (JObj o) →
  draws_fresh_id (JObj o) = false →
  passes_filter o w →
  ∃ om : option AgentMessage,
    (processOpenCodeData uuid (JObj o) w).2 = after_emitting (option_list om) 0 w
    ∧ onmessage JSON_parse uuid data w =
      (Normal tt,
       after_emitting
         (concat (replicate (length (eventHandlers w)) (option_list om))) 0 w).
Proof.
  intros Hparse Hdraw Hpass.
  exists (normalize JUndefined o).
  assert (Hp : ∀ w', processOpenCodeData uuid (JObj o) w'
                     = (Normal tt, after_emitting (option_list (normalize JUndefined o)) 0 w')).
  { intros w'. rewrite process_normalize, Hdraw.
    by rewrite (normalize_fresh_irrelevant _ JUndefined o Hdraw). }
  split; [by rewrite Hp|].
  unfold onmessage, try_catch. rewrite Hparse. unfold mbind, M_bind, get.
  by rewrite (for_of_subscribers_accepted uuid o _ _ Hp w Hpass).
Qed.

Lemma every_subscription_handles_the_event_witness :
  let w := run_events JsonFragment.parse uuid_counter true
             [CallOnMessage 0; CallStartSession (created (js "s1"));
              CallStartSession (created (js "s2"))] new_OpenCodeBackend in
  delivered
    (onmessage JsonFragment.parse uuid_counter
       (jsq "{'type':'text','content':'x','sessionId':'s2'}") w).2
  = delivered w ++ [(0, ModelOutput (JStr (js "x"))); (0, ModelOutput (JStr (js "x")))].
Proof.
  intros w.
  destruct (every_subscription_handles_the_event JsonFragment.parse uuid_counter
              (jsq "{'type':'text','content':'x','sessionId':'s2'}")
              (<[js "sessionId" := JStr (js "s2")]>
                 (<[js "content" := JStr (js "x")]>
                    (<[js "type" := JStr (js "text")]> ∅))) w)
    as (om & Hone & Hall).
  - vm_compute. reflexivity.
  - vm_compute. reflexivity.
  - right. exists (js "s2"). split; vm_compute; reflexivity.
  - vm_compute. reflexivity.
Defined.

(** ** Overlapping sends *)

Lemma orphaned_state p w w' :
  promise_state w' = promise_state w → orphaned p w → orphaned p w'.
Proof. unfold promise_state, orphaned. intros [= _ -> -> ->]. done. Qed.

Lemma orphaned_step JSON_parse uuid E p e w :
  orphaned p w → orphaned p (run_event JSON_parse uuid E e w).2.
Proof.
  intros (Hres & Hrr & Hlt).
  assert (He : e = SendBegins ∨ e = SendEnds ∨ (e ≠ SendBegins ∧ e ≠ SendEnds))
    by (destruct e; auto).
  destruct He as [->|[->|[Hb He]]].
  - simpl. rewrite sendPrompt_before_await_run. repeat split; simpl; [done| |lia].
    intros [= H]. lia.
  - simpl. rewrite sendPrompt_after_await_run. simpl.
    destruct (responseResolve w) as [q|] eqn:Eq; repeat split; simpl; try done.
    + intros [Hq%elem_of_singleton|?]%elem_of_union; [|done]. congruence.
    + by rewrite Eq.
  - eapply orphaned_state; [|done]. by apply run_event_promise_state.
Qed.

Lemma orphaned_forever JSON_parse uuid E p events w :
  orphaned p w → orphaned p (run_events JSON_parse uuid E events w).
Proof.
  revert w. induction events as [|e events IH]; intros w Hw; [done|].
  simpl. apply IH. by apply orphaned_step.
Qed.

(** X16: overlapping sends. When a second [sendPrompt] begins before the first
    has ended, the promise of the first send can never be resolved, whatever
    happens afterwards: the adapter holds the resolve function of the second
    promise only. The send that ends first resolves the promise of the second
    send, so that [waitForResponseComplete] is fulfilled at once although a
    stream is still being read; the end of the other send then resolves
    nothing. *)
Theorem overlapping_sends_orphan_the_first_promise
    (JSON_parse : jstring → option JsValue) (uuid : nat → jstring) (E : bool)
    (w : World) :
  (∀ p, p ∈ resolved w → p < next_promise w) →
  let first := next_promise w in
  let second := S (next_promise w) in
  let both := run_events JSON_parse uuid E [SendBegins; SendBegins] w in
  let one_ended := run_events JSON_parse uuid E [SendEnds] both in
  responseComplete both = Some second
  ∧ (∀ events, first ∉ resolved (run_events JSON_parse uuid E events both))
  ∧ second ∈ resolved one_ended
  ∧ (∀ timeoutMs resolves_in,
       (waitForResponseComplete timeoutMs resolves_in one_ended).1
       = Normal (Some (0%N, Fulfilled)))
  ∧ resolved (run_events JSON_parse uuid E [SendEnds] one_ended) = resolved one_ended.
Proof.
  intros Hfresh first second both one_ended.
  assert (Hboth : both =
    set_delivered
      ((delivered w ++ deliveries (Status running None) (messageHandlers w))
       ++ deliveries (Status running None) (messageHandlers w))
      (set_responseComplete (Some second)
         (set_responseResolve (Some second) (set_next_promise (S second) w)))).
  { subst both. simpl. by rewrite !sendPrompt_before_await_run. }
  assert (Hended : one_ended =
    set_responseResolve None
      (set_resolved ({[second]} ∪ resolved w)
         (set_delivered
            (delivered both ++ deliveries (Status idle None) (messageHandlers w))
            both))).
  { subst one_ended. simpl. rewrite sendPrompt_after_await_run. by rewrite Hboth. }
  clearbody one_ended both.
  split; [by rewrite Hboth|]. split; [|split; [|split]].
  - intros events.
    apply (orphaned_forever JSON_parse uuid E first events both).
    rewrite Hboth. repeat split; simpl.
    + intros H%Hfresh. subst first. lia.
    + intros [= H]. subst first second. lia.
    + subst first second. lia.
  - rewrite Hended. simpl. set_solver.
  - intros timeoutMs resolves_in. apply (wait_settled _ _ _ second).
    + rewrite Hended, Hboth. done.
    + rewrite Hended. simpl. set_solver.
  - cbn [run_events foldl run_event]. rewrite sendPrompt_after_await_run.
    assert (responseResolve one_ended = None) as -> by (by rewrite Hended).
    reflexivity.
Qed.

Lemma overlapping_sends_orphan_the_first_promise_witness :
  let both := run_events JsonFragment.parse uuid_counter true [SendBegins; SendBegins]
                listening_session in
  responseComplete both = Some 1
  ∧ 0 ∉ resolved
          (run_events JsonFragment.parse uuid_counter true [SendEnds; SendEnds] both).
Proof.
  intros both.
  destruct (overlapping_sends_orphan_the_first_promise JsonFragment.parse uuid_counter
              true listening_session) as (H1 & H2 & _).
  - intros p Hp. exfalso. revert Hp.
    change (resolved listening_session) with (∅ : gset nat). apply not_elem_of_empty.
  - split; [exact H1 | apply (H2 [SendEnds; SendEnds])].
Defined.

(** ** What the steps send and what a disposed adapter does *)

Lemma run_event_stream_or_push JSON_parse uuid E e w :
  match e with
  | StreamLine _ | PushMessage _ | CallRespondToPermission _ _ => True
  | _ => False
  end →
  ∃ msgs n, (run_event JSON_parse uuid E e w).2 = after_emitting msgs n w.
Proof.
  destruct e; try done; intros _; simpl.
  - destruct (handleStreamChunk_shape JSON_parse uuid line w) as (msgs & n & _ & ->).
    by exists msgs, n.
  - unfold respondToPermission. rewrite emit_after. by eexists _, _.
  - unfold mbind, M_bind, get, when. destruct (eventSource w).
    + destruct (onmessage_shape JSON_parse uuid data w) as (msgs & n & ->).
      by exists msgs, n.
    + exists [], 0. by rewrite after_emitting_nothing.
Qed.

Lemma cancel_result sid answer w :
  ∃ c msgs,
    cancel sid answer w
    = (c, after_emitting msgs 0 (set_requests (requests w ++ [PostAbort sid]) w)).
Proof.
  unfold cancel, abortSession, fetch, modify, mbind, M_bind.
  destruct answer as [|resp].
  - exists (Throw TypeError), []. by rewrite after_emitting_nothing.
  - destruct (negb (ok resp) && negb (status resp =? 404)%N).
    + eexists (Throw _), []. by rewrite after_emitting_nothing.
    + simpl. rewrite emit_after. by eexists _, _.
Qed.

(** X17: what each step sends to the server. [startSession] sends the request
    that creates a session and [cancel] the abort request, whether they
    succeed or not; no other step sends anything: lines of the stream, push
    events, [respondToPermission], the registration of listeners, [dispose],
    and the two parts of [sendPrompt] around its [sendMessage]. *)
Theorem requests_sent_by_a_step (JSON_parse : jstring → option JsValue)
    (uuid : nat → jstring) (E : bool) (e : Event) (w : World) :
  requests (run_event JSON_parse uuid E e w).2 =
  requests w ++ match e with
                | CallStartSession _ => [PostSession]
                | CallCancel sessionId _ => [PostAbort sessionId]
                | _ => []
                end.
Proof.
  destruct e as [h|h|created| |line| |sid answer|id approved| |data];
    rewrite ?app_nil_r.
  - reflexivity.
  - reflexivity.
  - simpl. unfold mbind at 1, M_bind at 1.
    destruct (startSession_result JSON_parse uuid E created NetworkFailure w)
      as [[e ->]|(resp & session & -> & Hok & Hc)]; [done|].
    by rewrite (startSession_created _ _ _ _ _ _ _ Hok Hc).
  - simpl. by rewrite sendPrompt_before_await_run.
  - by destruct (run_event_stream_or_push JSON_parse uuid E (StreamLine line) w I)
      as (? & ? & ->).
  - simpl. rewrite sendPrompt_after_await_run. simpl. by destruct (responseResolve w).
  - simpl. by destruct (cancel_result sid answer w) as (? & ? & ->).
  - by destruct (run_event_stream_or_push JSON_parse uuid E
                   (CallRespondToPermission id approved) w I) as (? & ? & ->).
  - simpl. by rewrite dispose_run.
  - by destruct (run_event_stream_or_push JSON_parse uuid E (PushMessage data) w I)
      as (? & ? & ->).
Qed.

Lemma emitted_no_handlers msgs : emitted msgs [] = [].
Proof. unfold emitted. by induction msgs. Qed.

Lemma silent_after_emitting msgs n w : silent w (after_emitting msgs n w).
Proof.
  intros Hmh. split; [done|]. unfold after_emitting. simpl.
  by rewrite Hmh, emitted_no_handlers, app_nil_r.
Qed.

Lemma silent_step JSON_parse uuid E e w :
  (∀ h, e ≠ CallOnMessage h) → silent w (run_event JSON_parse uuid E e w).2.
Proof.
  intros He.
  destruct e as [h|h|created| |line| |sid answer|id approved| |data].
  - by destruct (He h).
  - intros Hmh. simpl. by rewrite Hmh.
  - simpl. unfold mbind at 1, M_bind at 1.
    destruct (startSession_result JSON_parse uuid E created NetworkFailure w)
      as [[e ->]|(resp & session & -> & Hok & Hc)]; [done|].
    rewrite (startSession_created _ _ _ _ _ _ _ Hok Hc).
    intros Hmh. simpl. by rewrite Hmh, app_nil_r.
  - simpl. rewrite sendPrompt_before_await_run.
    intros Hmh. simpl. by rewrite Hmh, app_nil_r.
  - destruct (run_event_stream_or_push JSON_parse uuid E (StreamLine line) w I)
      as (? & ? & ->). apply silent_after_emitting.
  - simpl. rewrite sendPrompt_after_await_run.
    intros Hmh. simpl. destruct (responseResolve w); simpl; by rewrite Hmh, app_nil_r.
  - simpl. destruct (cancel_result sid answer w) as (? & ? & ->).
    apply (silent_after_emitting _ _ (set_requests _ w)).
  - destruct (run_event_stream_or_push JSON_parse uuid E
                (CallRespondToPermission id approved) w I) as (? & ? & ->).
    apply silent_after_emitting.
  - simpl. rewrite dispose_run. by intros Hmh.
  - destruct (run_event_stream_or_push JSON_parse uuid E (PushMessage data) w I)
      as (? & ? & ->). apply silent_after_emitting.
Qed.

Lemma silent_run JSON_parse uuid E events w :
  Forall (λ e, ∀ h, e ≠ CallOnMessage h) events →
  silent w (run_events JSON_parse uuid E events w).
Proof.
  intros Hev. revert w. induction Hev as [|e events He _ IH]; intros w Hmh; [done|].
  simpl. destruct (silent_step JSON_parse uuid E e w He Hmh) as [Hmh' Hd'].
  destruct (IH _ Hmh') as [Hmh'' Hd'']. split; [done | congruence].
Qed.

(** X18: a disposed adapter is silent. After [dispose], and until a listener is
    registered again, no step calls a listener: whatever is started, sent,
    streamed, pushed or cancelled, the deliveries stay as they were when
    [dispose] was called. *)
Theorem disposed_adapter_is_silent (JSON_parse : jstring → option JsValue)
    (uuid : nat → jstring) (E : bool) (events : list Event) (w : World) :
  Forall (λ e, ∀ h, e ≠ CallOnMessage h) events →
  let later := run_events JSON_parse uuid E events (dispose w).2 in
  delivered later = delivered w ∧ messageHandlers later = [].
Proof.
  intros Hev later.
  destruct (silent_run JSON_parse uuid E events (dispose w).2 Hev) as [Hmh Hd].
  - by rewrite dispose_run.
  - split; [|done]. subst later. rewrite Hd. by rewrite dispose_run.
Qed.

Lemma disposed_adapter_is_silent_witness :
  delivered
    (run_events JsonFragment.parse uuid_counter true
       [CallStartSession (created (js "s2")); SendBegins;
        StreamLine line_text_Hi; SendEnds]
       (dispose listening_session).2)
  = [(0, Status running None)].
Proof.
  destruct (disposed_adapter_is_silent JsonFragment.parse uuid_counter true
              [CallStartSession (created (js "s2")); SendBegins;
               StreamLine line_text_Hi; SendEnds] listening_session) as [H _].
  - repeat constructor; discriminate.
  - rewrite H. vm_compute. reflexivity.
Defined.

(** ** Generated identifiers *)

Lemma normalize_fresh fresh o :
  draws_fresh_id (JObj o) = true →
  ∃ m, normalize fresh o = Some m ∧ correlation_id m = fresh.
Proof.
  unfold draws_fresh_id, normalize.
  pose proof (dispatch_one_hot (field o "type")) as Hd.
  unfold dispatch, families in Hd. cbn [map] in Hd.
  set (c1 := case_of _ text_family) in *. set (c2 := case_of _ tool_call_family) in *.
  set (c3 := case_of _ tool_result_family) in *. set (c4 := case_of _ fs_edit_family) in *.
  set (c5 := case_of _ terminal_family) in *. set (c6 := case_of _ permission_family) in *.
  set (c7 := case_of _ error_family) in *. set (c8 := case_of _ done_family) in *.
  clearbody c1 c2 c3 c4 c5 c6 c7 c8.
  repeat (apply elem_of_cons in Hd as [Hd|Hd]); [..|by apply elem_of_nil in Hd].
  all: injection Hd as -> -> -> -> -> -> -> ->; cbn [andb orb]; try done.
  - rewrite orb_false_r. intros Ht%negb_true_iff. eexists. split; [reflexivity|].
    simpl. by rewrite (js_or_unfold (field o "id" ||| field o "callId")), Ht.
  - intros Ht%negb_true_iff. eexists. split; [reflexivity|].
    simpl. by rewrite (js_or_unfold (field o "id")), Ht.
Qed.

Lemma uuid_calls_step JSON_parse uuid E e w :
  uuid_calls w ≤ uuid_calls (run_event JSON_parse uuid E e w).2.
Proof.
  destruct e as [h|h|created| |line| |sid answer|id approved| |data].
  - done.
  - done.
  - simpl. unfold mbind at 1, M_bind at 1.
    destruct (startSession_result JSON_parse uuid E created NetworkFailure w)
      as [[e ->]|(resp & session & -> & Hok & Hc)]; [done|].
    by rewrite (startSession_created _ _ _ _ _ _ _ Hok Hc).
  - simpl. by rewrite sendPrompt_before_await_run.
  - destruct (run_event_stream_or_push JSON_parse uuid E (StreamLine line) w I)
      as (? & ? & ->). simpl. lia.
  - simpl. rewrite sendPrompt_after_await_run. simpl. by destruct (responseResolve w).
  - simpl. destruct (cancel_result sid answer w) as (? & ? & ->). simpl. lia.
  - destruct (run_event_stream_or_push JSON_parse uuid E
                (CallRespondToPermission id approved) w I) as (? & ? & ->). simpl. lia.
  - simpl. by rewrite dispose_run.
  - destruct (run_event_stream_or_push JSON_parse uuid E (PushMessage data) w I)
      as (? & ? & ->). simpl. lia.
Qed.

Lemma uuid_calls_run JSON_parse uuid E events w :
  uuid_calls w ≤ uuid_calls (run_events JSON_parse uuid E events w).
Proof.
  revert w. induction events as [|e events IH]; intros w; [done|].
  simpl. etrans; [apply (uuid_calls_step JSON_parse uuid E e)|apply IH].
Qed.

(** X19: generated identifiers are not reused. With a generator that never
    returns the same identifier twice, two records that need a fallback
    identifier (tool calls without [id] and [callId], permission requests
    without [id]) get different ones: the message normalized first and a
    message normalized at any later point of the run carry different
    correlation identifiers. *)
Theorem generated_identifiers_are_not_reused (JSON_parse : jstring → option JsValue)
    (uuid : nat → jstring) (E : bool) (d1 d2 : JsValue) (events : list Event)
    (w : World) :
  (∀ j k, uuid j = uuid k → j = k) →
  draws_fresh_id d1 = true → draws_fresh_id d2 = true →
  let first := processOpenCodeData uuid d1 w in
  let later := run_events JSON_parse uuid E events first.2 in
  let second := processOpenCodeData uuid d2 later in
  ∃ m1 m2,
    delivered first.2 = delivered w ++ deliveries m1 (messageHandlers w)
    ∧ delivered second.2 = delivered later ++ deliveries m2 (messageHandlers later)
    ∧ correlation_id m1 ≠ correlation_id m2.
Proof.
  intros Hinj H1 H2 first later second.
  destruct d1 as [| | | | | |o1]; try done. destruct d2 as [| | | | | |o2]; try done.
  destruct (normalize_fresh (JStr (uuid (uuid_calls w))) o1 H1) as (m1 & Hn1 & Hc1).
  destruct (normalize_fresh (JStr (uuid (uuid_calls later))) o2 H2) as (m2 & Hn2 & Hc2).
  assert (Hfirst : first = (Normal tt, after_emitting [m1] 1 w)).
  { subst first. by rewrite process_normalize, Hn1, H1. }
  assert (Hsecond : second = (Normal tt, after_emitting [m2] 1 later)).
  { subst second. by rewrite process_normalize, Hn2, H2. }
  assert (Hlt : uuid_calls w < uuid_calls later).
  { subst later. pose proof (uuid_calls_run JSON_parse uuid E events first.2) as Hle.
    rewrite Hfirst in Hle. simpl in Hle. rewrite Hfirst. simpl. lia. }
  clearbody first later second. subst first second.
  exists m1, m2. unfold after_emitting, emitted. simpl. rewrite !app_nil_r.
  split; [done|]. split; [done|].
  rewrite Hc1, Hc2. intros [= Heq]. apply Hinj in Heq. lia.
Qed.

Lemma js_injective s t : js s = js t → s = t.
Proof.
  unfold js. intros H.
  apply (f_equal (map ascii_of_N)) in H. rewrite !map_map in H.
  assert (Hid : ∀ l : list ascii, map (λ x, ascii_of_N (N_of_ascii x)) l = l).
  { intros l. induction l as [|a l IH]; [done|].
    simpl. by rewrite ascii_N_embedding, IH. }
  rewrite !Hid in H.
  apply (f_equal string_of_list_ascii) in H.
  by rewrite !string_of_list_ascii_of_string in H.
Qed.

Lemma uuid_counter_injective j k : uuid_counter j = uuid_counter k → j = k.
Proof.
  unfold uuid_counter, js_of_N. intros H. apply app_inv_head in H.
  apply js_injective in H.
  apply (f_equal NilEmpty.uint_of_string) in H. rewrite !NilEmpty.usu in H.
  injection H as H. apply (f_equal N.of_uint) in H. rewrite !Stdlib.Numbers.DecimalN.Unsigned.of_to in H.
  lia.
Qed.

Lemma generated_identifiers_are_not_reused_witness :
  let d : JsValue := JObj (<[js "type" := JStr (js "tool_call")]> ∅) in
  let w := set_messageHandlers [0] new_OpenCodeBackend in
  ∃ m1 m2,
    delivered (processOpenCodeData uuid_counter d w).2 = [(0, m1)]
    ∧ delivered (processOpenCodeData uuid_counter d
                   (processOpenCodeData uuid_counter d w).2).2 = [(0, m1); (0, m2)]
    ∧ correlation_id m1 ≠ correlation_id m2.
Proof.
  intros d w.
  destruct (generated_identifiers_are_not_reused JsonFragment.parse uuid_counter true
              d d [] w uuid_counter_injective) as (m1 & m2 & H1 & H2 & Hne).
  - vm_compute. reflexivity.
  - vm_compute. reflexivity.
  - exists m1, m2. simpl in H2. split; [exact H1|]. split; [|exact Hne].
    rewrite H2, H1. reflexivity.
Defined.

(** ** Configuration *)

Lemma or_default_cases a d :
  (a = Some (or_default a d) ∧ or_default a d ≠ []) ∨ (unset a ∧ or_default a d = d).
Proof.
  unfold or_default, unset. destruct a as [[|c s]|]; simpl; auto.
Qed.

Lemma or_undefined_cases a b :
  (or_undefined a b = a ∧ ¬ unset a) ∨ (unset a ∧ or_undefined a b = b).
Proof.
  unfold or_undefined, unset. destruct a as [[|c s]|]; simpl; auto.
  left. split; [done|]. by intros [|].
Qed.

Lemma or_default_fixed s d : s ≠ [] → or_default (Some s) d = s.
Proof. intros Hs. unfold or_default. simpl. by rewrite bool_decide_eq_false_2. Qed.

Lemma or_undefined_same a : or_undefined a a = a.
Proof. unfold or_undefined. destruct a as [s|]; [|done]. by destruct (truthy _). Qed.

Lemma resolved_address_nonempty a :
  or_default a DEFAULT_OPENCODE_SERVER_URL ≠ [].
Proof. by destruct (or_default_cases a DEFAULT_OPENCODE_SERVER_URL) as [[_ ?]|[_ ->]]. Qed.

(** X20: the address that [createOpenCodeBackend] reports is the one its
    client connects to, and it is never empty. An empty [serverUrl] option
    and an empty environment variable count as absent: the address is the
    option, else the environment variable, else the default. *)
Theorem factory_reports_the_address_in_use (env : gmap jstring jstring)
    (options : OpenCodeBackendOptions) :
  let r := createOpenCodeBackend env options in
  serverUrl (backend r).1 = result_serverUrl r
  ∧ result_serverUrl r ≠ []
  ∧ (options_serverUrl options = Some (result_serverUrl r)
     ∨ (unset (options_serverUrl options)
        ∧ env !! OPENCODE_SERVER_URL_ENV = Some (result_serverUrl r))
     ∨ (unset (options_serverUrl options)
        ∧ unset (env !! OPENCODE_SERVER_URL_ENV)
        ∧ result_serverUrl r = DEFAULT_OPENCODE_SERVER_URL)).
Proof.
  unfold createOpenCodeBackend, new_OpenCodeBackend_with, new_OpenCodeClient.
  cbn [backend result_serverUrl serverUrl fst config_serverUrl options_serverUrl].
  set (a := options_serverUrl options). set (b := env !! OPENCODE_SERVER_URL_ENV).
  split; [|split].
  - apply or_default_fixed, resolved_address_nonempty.
  - apply resolved_address_nonempty.
  - destruct (or_undefined_cases a b) as [[-> Ha]|[Ha ->]].
    + destruct (or_default_cases a DEFAULT_OPENCODE_SERVER_URL) as [[? _]|[? _]]; [|done].
      by left.
    + destruct (or_default_cases b DEFAULT_OPENCODE_SERVER_URL) as [[? _]|[? ?]]; auto.
Qed.

(** X21: [runOpenCode] probes the server it will talk to. Whatever the
    environment holds, the client used for the health probe and the client
    inside the backend created afterwards have the same address and the
    same password, and that address is the one shown on screen. *)
Theorem probe_and_backend_share_their_settings (env : gmap jstring jstring)
    (cwd : jstring) :
  let s := runOpenCode_setup env cwd in
  openCodeClient s = (backend (created_backend s)).1
  ∧ result_serverUrl (created_backend s) = serverUrl (openCodeClient s).
Proof.
  unfold runOpenCode_setup, createOpenCodeBackend, new_OpenCodeBackend_with,
    new_OpenCodeClient.
  cbn [openCodeClient created_backend backend result_serverUrl serverUrl password fst
       config_serverUrl config_password options_serverUrl options_password].
  set (url := or_default (env !! OPENCODE_SERVER_URL_ENV) DEFAULT_OPENCODE_SERVER_URL).
  assert (Hurl : url ≠ []) by apply resolved_address_nonempty.
  assert (H1 : or_default (Some url) DEFAULT_OPENCODE_SERVER_URL = url)
    by by apply or_default_fixed.
  assert (H2 : or_undefined (Some url) (env !! OPENCODE_SERVER_URL_ENV) = Some url).
  { unfold or_undefined. simpl. by rewrite bool_decide_eq_false_2. }
  rewrite H2, or_undefined_same, !H1. done.
Qed.

(** ** The health probes *)

(** X22: [isServerRunning] of the OpenCode client never throws and changes
    nothing; it answers [true] exactly when the health request got a
    success status and a body that is JSON. What the body says (its
    [healthy] field) is not looked at. *)
Theorem opencode_probe_accepts_any_json_body (answer : Fetched (option JsValue))
    (w : World) :
  ∃ b, isServerRunning answer w = (Normal b, w)
    ∧ (b = true ↔ ∃ r health, answer = Responded r ∧ ok r = true
                                ∧ content r = Some health).
Proof.
  unfold isServerRunning, try_catch, checkHealth.
  destruct answer as [|[o s [health|]]]; simpl.
  - exists false. split; [done|]. split; [done|]. by intros (? & ? & ? & _).
  - destruct o; simpl.
    + exists true. split; [done|]. split; [|done]. intros _. by eexists _, _.
    + exists false. split; [done|]. split; [done|].
      intros (? & ? & [= <-] & ? & _). done.
  - destruct o; simpl.
    + exists false. split; [done|]. split; [done|].
      intros (? & ? & [= <-] & _ & ?). done.
    + exists false. split; [done|]. split; [done|].
      intros (? & ? & [= <-] & ? & _). done.
Qed.

(** X23: [isServerRunning] of the Fusion client never throws and changes
    nothing; it answers [true] exactly when the health request got a
    success status and a JSON object whose [status] is the string
    [healthy]. A body that is [null] makes the property access throw, which
    the method turns into [false]. *)
Theorem fusion_probe_requires_healthy_status (answer : Fetched (option JsValue))
    (w : World) :
  ∃ b, Fusion.isServerRunning answer w = (Normal b, w)
    ∧ (b = true ↔ ∃ r o, answer = Responded r ∧ ok r = true
                           ∧ content r = Some (JObj o)
                           ∧ o !! js "status" = Some (JStr (js "healthy"))).
Proof.
  unfold Fusion.isServerRunning, try_catch, Fusion.checkHealth.
  destruct answer as [|[o s [health|]]]; simpl.
  - exists false. split; [done|]. split; [done|]. by intros (? & ? & ? & _).
  - destruct o; simpl.
    + unfold mbind, M_bind. simpl.
      destruct health as [| | | | | |obj]; simpl;
        try (exists false; split; [done|]; split; [done|];
             by intros (? & ? & [= <-] & _ & ? & _)).
      destruct (obj !! js "status") as [v|] eqn:Ev; simpl.
      * destruct v as [| | | |s'| |]; simpl;
          try (exists false; split; [done|]; split; [done|];
               intros (? & ? & [= <-] & _ & [= <-] & ?); simpl in *; congruence).
        exists (bool_decide (s' = js "healthy")). split; [done|].
        rewrite bool_decide_eq_true. split.
        -- intros ->. by eexists _, _.
        -- intros (? & ? & [= <-] & _ & [= <-] & ?). simpl in *. congruence.
      * exists false. split; [done|]. split; [done|].
        intros (? & ? & [= <-] & _ & [= <-] & ?). simpl in *. congruence.
    + exists false. split; [done|]. split; [done|].
      intros (? & ? & [= <-] & ? & _). done.
  - destruct o; simpl.
    + exists false. split; [done|]. split; [done|].
      intros (? & ? & [= <-] & _ & ? & _). done.
    + exists false. split; [done|]. split; [done|].
      intros (? & ? & [= <-] & ? & _). done.
Qed.

(** ** The display of [runOpenCode] *)

Lemma shown_app ToString JSON_stringify h ds1 ds2 :
  shown ToString JSON_stringify h (ds1 ++ ds2)
  = shown ToString JSON_stringify h ds1 ++ shown ToString JSON_stringify h ds2.
Proof. unfold shown. apply flat_map_app. Qed.

Lemma shown_nothing ToString JSON_stringify h m hs :
  runOpenCode_onMessage ToString JSON_stringify m = [] →
  shown ToString JSON_stringify h (emitted [m] hs) = [].
Proof.
  intros Hm. unfold emitted, deliveries. simpl. rewrite app_nil_r.
  induction hs as [|h' hs IH]; [done|].
  simpl. rewrite IH, Hm. by destruct (bool_decide _).
Qed.

Lemma delivered_after_emitting msgs n w :
  delivered (after_emitting msgs n w) = delivered w ++ emitted msgs (messageHandlers w).
Proof. reflexivity. Qed.

(** X24: file edits, terminal output and permission requests never reach the
    screen. When the adapter normalizes a record of one of these three
    families, the handler that [runOpenCode] registered makes no call on the
    message buffer, on whichever handler identity it was registered. *)
Theorem display_ignores_edits_terminal_and_permissions
    (ToString : JsValue → jstring) (JSON_stringify : JsValue → option jstring)
    (uuid : nat → jstring) (o : gmap jstring JsValue) (h : Handler) (w : World) :
  case_of (field o "type") fs_edit_family
    || case_of (field o "type") terminal_family
    || case_of (field o "type") permission_family = true →
  shown ToString JSON_stringify h (delivered (processOpenCodeData uuid (JObj o) w).2)
  = shown ToString JSON_stringify h (delivered w).
Proof.
  intros Hfam. rewrite process_normalize.
  assert (∃ m, normalize (JStr (uuid (uuid_calls w))) o = Some m
               ∧ runOpenCode_onMessage ToString JSON_stringify m = []) as (m & -> & Hm).
  { unfold normalize.
    pose proof (dispatch_one_hot (field o "type")) as Hd.
    unfold dispatch, families in Hd. cbn [map] in Hd.
    set (c1 := case_of _ text_family) in *. set (c2 := case_of _ tool_call_family) in *.
    set (c3 := case_of _ tool_result_family) in *. set (c4 := case_of _ fs_edit_family) in *.
    set (c5 := case_of _ terminal_family) in *. set (c6 := case_of _ permission_family) in *.
    set (c7 := case_of _ error_family) in *. set (c8 := case_of _ done_family) in *.
    clearbody c1 c2 c3 c4 c5 c6 c7 c8.
    repeat (apply elem_of_cons in Hd as [Hd|Hd]); [..|by apply elem_of_nil in Hd].
    all: injection Hd as -> -> -> -> -> -> -> ->; try done.
    all: by eexists. }
  change (option_list (Some m)) with [m]. cbn [snd].
  rewrite delivered_after_emitting, shown_app.
  by rewrite shown_nothing, app_nil_r.
Qed.

Lemma display_ignores_edits_terminal_and_permissions_witness :
  let o : gmap jstring JsValue :=
    <[js "type" := JStr (js "permission_request")]>
      (<[js "reason" := JStr (js "write file")]> ∅) in
  let w := set_messageHandlers [0] new_OpenCodeBackend in
  shown (λ _, js "?") (λ _, None) 0
    (delivered (processOpenCodeData uuid_counter (JObj o) w).2) = [].
Proof.
  intros o w.
  rewrite (display_ignores_edits_terminal_and_permissions
             (λ _, js "?") (λ _, None) uuid_counter o 0 w).
  - reflexivity.
  - vm_compute. reflexivity.
Defined.

(** ** Waiting for a Fusion session *)

Lemma poll_loop_bound timeoutMs elapsed polls :
  (Fusion.poll_loop timeoutMs elapsed polls).2 = 0
  ∨ (Z.of_N elapsed
     + 2000 * (Z.of_nat (Fusion.poll_loop timeoutMs elapsed polls).2 - 1) < timeoutMs)%Z.
Proof.
  revert elapsed. induction polls as [|p rest IH]; intros elapsed; simpl.
  - destruct (Z.ltb_spec (Z.of_N elapsed) timeoutMs); simpl; auto.
  - destruct (Z.ltb_spec (Z.of_N elapsed) timeoutMs) as [Hlt|]; simpl; [|auto].
    right.
    destruct (Fusion.getSession (Fusion.answer p)) as [session|e]; simpl; [|lia].
    destruct (Fusion.session_status session); simpl; try lia.
    all: destruct (IH (elapsed + Fusion.latency p + 2000 + Fusion.overrun p)%N) as [->|H];
      lia.
Qed.

Lemma poll_loop_settles timeoutMs elapsed polls :
  (timeoutMs ≤ Z.of_N elapsed + 2000 * Z.of_nat (length polls))%Z →
  ∃ c, (Fusion.poll_loop timeoutMs elapsed polls).1 = Fusion.Settled c.
Proof.
  revert elapsed. induction polls as [|p rest IH]; intros elapsed Hlen; simpl in *.
  - destruct (Z.ltb_spec (Z.of_N elapsed) timeoutMs); [lia|]. by eexists.
  - destruct (Z.ltb_spec (Z.of_N elapsed) timeoutMs) as [Hlt|]; [|by eexists].
    destruct (Fusion.getSession (Fusion.answer p)) as [session|e]; [|by eexists].
    destruct (Fusion.session_status session); simpl; try by eexists.
    all: apply IH; lia.
Qed.

(** X25: [waitForSessionReady] ends after a bounded number of requests. Each
    round waits two seconds or more before the next test of the clock, so
    once the rounds described cover the timeout the returned promise is
    settled, and the [n] requests made satisfy [2000 * (n - 1) < timeoutMs]:
    at most one request per started two seconds of the timeout. *)
Theorem waitForSessionReady_settles_within_the_bound (timeoutMs : Z)
    (polls : list Fusion.Poll) :
  (timeoutMs ≤ 2000 * Z.of_nat (length polls))%Z →
  let r := Fusion.waitForSessionReady timeoutMs polls in
  (∃ c, r.1 = Fusion.Settled c)
  ∧ (r.2 = 0 ∨ (2000 * (Z.of_nat r.2 - 1) < timeoutMs)%Z).
Proof.
  intros Hlen. unfold Fusion.waitForSessionReady. split.
  - apply poll_loop_settles. simpl. lia.
  - destruct (poll_loop_bound timeoutMs 0 polls) as [H|H]; [by left|right].
    simpl in H. lia.
Qed.

Lemma waitForSessionReady_settles_within_the_bound_witness :
  let starting_session := {| Fusion.session_id := js "s1";
                             Fusion.session_status := Fusion.starting;
                             Fusion.session_error := None |} in
  let p := {| Fusion.answer := Responded (mkResponse true 200 (Some starting_session));
              Fusion.latency := 40; Fusion.overrun := 3 |} in
  let r := Fusion.waitForSessionReady 5000 [p; p; p] in
  (∃ c, r.1 = Fusion.Settled c) ∧ (r.2 = 0 ∨ (2000 * (Z.of_nat r.2 - 1) < 5000)%Z).
Proof.
  intros starting_session p.
  apply (waitForSessionReady_settles_within_the_bound 5000 [p; p; p]).
  simpl. lia.
Defined.

Lemma poll_loop_ready timeoutMs elapsed polls session :
  (Fusion.poll_loop timeoutMs elapsed polls).1 = Fusion.Settled (Normal session) →
  ∃ n p, (Fusion.poll_loop timeoutMs elapsed polls).2 = S n
    ∧ polls !! n = Some p
    ∧ Fusion.getSession (Fusion.answer p) = Normal session
    ∧ Fusion.session_status session = Fusion.active
    ∧ Forall Fusion.in_progress (take n polls).
Proof.
  revert elapsed. induction polls as [|p rest IH]; intros elapsed; simpl.
  - by destruct (Z.of_N elapsed <? timeoutMs)%Z.
  - destruct (Z.of_N elapsed <? timeoutMs)%Z; [|done].
    destruct (Fusion.getSession (Fusion.answer p)) as [s|e] eqn:Eg; [|done].
    destruct (Fusion.session_status s) eqn:Es; simpl; try done.
    4: { intros [= ->]. exists 0, p. repeat split; auto. }
    all: intros H; eapply IH in H as (n & q & Hn & Hq & Hg & Ha & Hall); rewrite Hn;
      exists (S n), q; split; [done|]; split; [done|]; split; [done|]; split; [done|];
      cbn [take]; apply list.Forall_cons; split; [|done];
      exists s; split; [done|]; rewrite Es; set_solver.
Qed.

(** X26: [waitForSessionReady] hands out active sessions only. When it
    resolves, the session it returns is the answer to the last request it
    made and has status [active], and every earlier request was answered
    with a session still in progress (pending, provisioning, starting or
    stopping): a failed request, an [error] or a [stopped] session would
    have ended the wait with an exception. *)
Theorem waitForSessionReady_resolves_with_an_active_session (timeoutMs : Z)
    (polls : list Fusion.Poll) (session : Fusion.FusionSession) :
  (Fusion.waitForSessionReady timeoutMs polls).1 = Fusion.Settled (Normal session) →
  ∃ n p, (Fusion.waitForSessionReady timeoutMs polls).2 = S n
    ∧ polls !! n = Some p
    ∧ Fusion.getSession (Fusion.answer p) = Normal session
    ∧ Fusion.session_status session = Fusion.active
    ∧ Forall Fusion.in_progress (take n polls).
Proof. apply poll_loop_ready. Qed.

Lemma waitForSessionReady_resolves_with_an_active_session_witness :
  let session_in st := {| Fusion.session_id := js "s1"; Fusion.session_status := st;
                          Fusion.session_error := None |} in
  let poll st := {| Fusion.answer := Responded (mkResponse true 200 (Some (session_in st)));
                    Fusion.latency := 40; Fusion.overrun := 3 |} in
  let polls := [poll Fusion.pending; poll Fusion.starting; poll Fusion.active] in
  ∃ n p, (Fusion.waitForSessionReady 300000 polls).2 = S n
    ∧ polls !! n = Some p
    ∧ Fusion.getSession (Fusion.answer p) = Normal (session_in Fusion.active)
    ∧ Fusion.session_status (session_in Fusion.active) = Fusion.active
    ∧ Forall Fusion.in_progress (take n polls).
Proof.
  intros session_in poll polls.
  apply (waitForSessionReady_resolves_with_an_active_session 300000 polls
           (session_in Fusion.active)).
  vm_compute. reflexivity.
Defined.

